(** * Darker: the retry loop of [format_edited_parts] and the driver [main]

    A shallow embedding of [src/darker/__main__.py].

    The two functions of that module are effectful: they read and write
    files, call the collaborators imported from the other modules of the
    package (Black, isort, the Git differ, the line chooser, the AST
    verifier, the linters), raise and catch exceptions, and
    [format_edited_parts] is a generator consumed by the [for] loop of
    [main].  The embedding keeps all of that explicit:

    - a computation is a function from the disk to a result (a value or a
      raised exception), the disk it leaves, and the list of collaborator
      calls it made, oldest first;
    - the collaborators are the fields of the class [Collaborators];
    - a generator consumed by a [for] loop is a fold: the generator takes the
      loop body of its consumer and runs it at each [yield];
    - [black_args] is a dict that [main] builds once and hands to every
      call: the first model takes [run_black] to leave it as it is, the
      module [Shared] hands the dict on from call to call. *)

From stdpp Require Import base option list strings gmap pretty.
From Stdlib Require Import ZArith Lia Ascii String.

Open Scope string_scope.
Open Scope nat_scope.
Open Scope list_scope.

Abbreviation length := List.length.

(** ** Values *)

(** A [pathlib.Path], by its text. *)
Definition Path : Type := string.

(** The exceptions the module distinguishes.  [NotEquivalentError] is the one
    the retry loop catches; [SystemExit] is what the builtin [exit] raises;
    [FileNotFoundError] is what [Path.read_text] raises on a missing file,
    and what starting a program that is not installed raises; every other
    exception is an [Exception] with its name. *)
Inductive exn : Type :=
| NotEquivalentError
| SystemExit (code : Z)
| FileNotFoundError (path : Path)
| Exception (what : string).

Global Instance exn_eq_dec : EqDecision exn.
Proof. solve_decision. Defined.

(** How a computation ends. *)
Inductive result (A : Type) : Type :=
| Returned (a : A)
| Raised (e : exn).
Arguments Returned {A} a.
Arguments Raised {A} e.

(** [BlackArgs] is a dictionary with three optional keys: the value of the
    dict at one moment. *)
Record BlackArgs : Type := mkBlackArgs {
  config : option string;
  line_length : option Z;
  skip_string_normalization : option bool
}.

(** One opcode of [difflib]: the tag and the two half-open ranges. *)
Definition Opcode : Type := (string * nat * nat * nat * nat)%type.

(** The tuple [format_edited_parts] yields:
    [(src, worktree_content, result_str, chosen_lines)]. *)
Definition Yielded : Type := (Path * string * string * list string)%type.

(** ** [str.splitlines]

    Python text is modelled by [string], one character per code point below
    256.  The line boundaries in that range are LF, CR, CR LF, VT, FF, FS,
    GS, RS and NEL; a boundary ends a line and is dropped, and a last line
    without a boundary is kept when it is not empty. *)
Definition is_line_boundary (c : ascii) : bool :=
  let n := nat_of_ascii c in
  Nat.eqb n 10 || Nat.eqb n 11 || Nat.eqb n 12 || Nat.eqb n 13
  || Nat.eqb n 28 || Nat.eqb n 29 || Nat.eqb n 30 || Nat.eqb n 133.

Definition string_of_rev (cur : list ascii) : string :=
  string_of_list_ascii (rev cur).

Fixpoint splitlines_from (cur : list ascii) (s : string) : list string :=
  match s with
  | EmptyString =>
      match cur with
      | [] => []
      | _ => [string_of_rev cur]
      end
  | String c rest =>
      if is_line_boundary c then
        match rest with
        | String c' rest' =>
            if Nat.eqb (nat_of_ascii c) 13 && Nat.eqb (nat_of_ascii c') 10
            then string_of_rev cur :: splitlines_from [] rest'
            else string_of_rev cur :: splitlines_from [] rest
        | EmptyString => string_of_rev cur :: splitlines_from [] rest
        end
      else splitlines_from (c :: cur) rest
  end.

Definition splitlines (s : string) : list string := splitlines_from [] s.

(** ** Computations *)

(** The disk: the text [read_text] returns for each existing path. *)
Abbreviation Disk := (gmap Path string).

(** What a computation did: how it ended, the disk it left, and its calls. *)
Record Run (E A : Type) : Type := mkRun {
  outcome : result A;
  disk : Disk;
  trace : list E
}.
Arguments mkRun {E A} outcome disk trace.
Arguments outcome {E A} r.
Arguments disk {E A} r.
Arguments trace {E A} r.

Definition M (E A : Type) : Type := Disk → Run E A.

Definition ret {E A} (a : A) : M E A := λ d, mkRun (Returned a) d [].

Definition raise {E A} (e : exn) : M E A := λ d, mkRun (Raised e) d [].

Definition bind {E A B} (c : M E A) (k : A → M E B) : M E B :=
  λ d,
    let r := c d in
    match outcome r with
    | Returned a =>
        let r' := k a (disk r) in
        mkRun (outcome r') (disk r') (trace r ++ trace r')
    | Raised e => mkRun (Raised e) (disk r) (trace r)
    end.

(** Record one call. *)
Definition emit {E} (ev : E) : M E unit := λ d, mkRun (Returned tt) d [ev].

(** A call to a collaborator that returns or raises. *)
Definition of_sum {E A} (r : exn + A) : M E A :=
  match r with
  | inl e => raise e
  | inr a => ret a
  end.

(** Put the calls made so far in front of a run. *)
Definition after {E A} (evs : list E) (r : Run E A) : Run E A :=
  mkRun (outcome r) (disk r) (evs ++ trace r).

(** Run a computation of the caller inside the generator. *)
Definition embed {E E' A} (f : E → E') (c : M E A) : M E' A :=
  λ d, let r := c d in mkRun (outcome r) (disk r) (map f (trace r)).

Declare Scope comp_scope.
Delimit Scope comp_scope with comp.
Notation "x <- c ;; k" := (bind c (λ x, k))
  (at level 100, c at next level, right associativity) : comp_scope.
Notation "c ;;; k" := (bind c (λ _, k))
  (at level 100, right associativity) : comp_scope.
Open Scope comp_scope.

(** ** The collaborators

    The functions [__main__] imports from the other modules of the package and
    from the standard library.  Those whose exceptions the module catches
    or lets through to its caller return a sum or an option: [run_black],
    [parse_command_line] and [relative_to_cwd] return their value or the
    exception they raise, [verify_ast_unchanged], [post_gh_suggestion] and
    [run_linter] return [None] or the exception they raise.  The others are
    taken to return.  [run_black] is taken here to leave the dict
    [black_args] as it is; the module [Shared] below drops that.

    [post_gh_suggestion] is defined in [__main__] itself: it reads the GitHub
    event file and the environment, and sends the suggestions to the GitHub
    API.  It writes no file, and [main] sees of it only whether it returns;
    it is kept with the collaborators. *)

(** The [argparse] namespace [parse_command_line] returns. *)
Record Namespace : Type := mkNamespace {
  args_src : list string;
  args_revision : string;
  args_isort : bool;
  args_lint : list string;
  args_config : option string;
  args_line_length : option Z;
  args_skip_string_normalization : option bool;
  args_check : bool;
  args_diff : bool
}.

Class Collaborators : Type := {
  (** [darker.diff.DiffChunk] *)
  DiffChunk : Type;
  (** [darker.utils.get_common_root] *)
  get_common_root : gset Path → Path;
  (** [darker.git.git_get_modified_files srcs revision git_root] *)
  git_get_modified_files : gset Path → string → Path → gset Path;
  (** the builtin [sorted], on a set of paths *)
  sorted : gset Path → list Path;
  (** [git_root / path_in_repo] *)
  joinpath : Path → Path → Path;
  (** [darker.import_sorting.apply_isort content src config line_length] *)
  apply_isort : string → Path → option string → option Z → string;
  (** [EditedLinenumsDiffer(git_root, revision).revision_vs_lines
       (path_in_repo, lines, context_lines)] *)
  revision_vs_lines : Path → string → Path → list string → nat → list nat;
  (** [darker.black_diff.run_black src content black_args] *)
  run_black : Path → string → BlackArgs → exn + list string;
  (** [darker.diff.diff_and_get_opcodes] *)
  diff_and_get_opcodes : list string → list string → list Opcode;
  (** [list(darker.diff.opcodes_to_chunks(opcodes, src, dst))] *)
  opcodes_to_chunks :
    list Opcode → list string → list string → list DiffChunk;
  (** [list(darker.chooser.choose_lines(black_chunks, edited_linenums))] *)
  choose_lines : list DiffChunk → list nat → list string;
  (** [darker.utils.joinlines] *)
  joinlines : list string → string;
  (** [darker.verification.verify_ast_unchanged
       (edited_content, result_str, black_chunks, edited_linenums)] *)
  verify_ast_unchanged :
    string → string → list DiffChunk → list nat → option exn;
  (** [sys.argv] *)
  sys_argv : list string;
  (** [darker.command_line.parse_command_line], its first component *)
  parse_command_line : list string → exn + Namespace;
  (** whether [darker.import_sorting.isort] is a module and not [None] *)
  isort : bool;
  (** [str(path.relative_to(Path(os.getcwd())))] *)
  relative_to_cwd : Path → exn + string;
  (** [post_gh_suggestion path old_content new_lines], seen from [main] *)
  post_gh_suggestion : string → string → list string → option exn;
  (** [darker.linting.run_linter
       (linter_cmdline, git_root, changed_files, revision)], which starts the
      linter as a subprocess: [None], or the exception it raises *)
  run_linter : string → Path → gset Path → string → option exn
}.

(** ** The calls a run records *)

(** Calls made by the loop body of [main]. *)
Inductive caller_event : Type :=
| EvPostGhSuggestion (path old_content : string) (new_lines : list string)
| EvModifyFile (path : Path) (new_content : string).

Section Darker.
Context `{Collaborators}.

(** Calls made by [format_edited_parts]; [EvYield] is a [yield], and
    [EvCaller] a call the consumer makes while the generator is suspended. *)
Inductive event : Type :=
| EvReadText (src : Path)
| EvApplyIsort (content : string) (src : Path)
    (cfg : option string) (len : option Z)
| EvRevisionVsLines (path_in_repo : Path) (lines : list string)
    (context_lines : nat)
| EvRunBlack (src : Path) (content : string) (black_args : BlackArgs)
| EvDiffAndGetOpcodes (a b : list string)
| EvOpcodesToChunks (opcodes : list Opcode) (a b : list string)
| EvChooseLines (chunks : list DiffChunk) (linenums : list nat)
| EvJoinlines (lines : list string)
| EvVerifyAstUnchanged (edited_content result_str : string)
    (chunks : list DiffChunk) (linenums : list nat)
| EvYield (y : Yielded)
| EvRunLinter (cmdline : string) (git_root : Path)
    (changed_files : gset Path) (revision : string)
| EvCaller (e : caller_event).

(** [src.read_text()] *)
Definition read_text (src : Path) : M event string :=
  emit (EvReadText src) ;;;
  λ d, match d !! src with
       | Some text => ret text d
       | None => raise (FileNotFoundError src) d
       end.

(** [modify_file]: write the new content to the file. *)
Definition modify_file (path : Path) (new_content : string)
  : M caller_event unit :=
  emit (EvModifyFile path new_content) ;;;
  λ d, mkRun (Returned tt) (<[path := new_content]> d) [].

(** The loop body of a consumer of the generator, with the consumer's local
    variables as an accumulator. *)
Definition Consumer (A : Type) : Type := Yielded → A → M caller_event A.

(** [yield y]: suspend, let the consumer run its loop body, resume. *)
Definition yield {A} (body : Consumer A) (y : Yielded) (acc : A)
  : M event A :=
  emit (EvYield y) ;;; embed EvCaller (body y acc).

(** *** One file of [format_edited_parts] *)

Section OneFile.
Context {A : Type} (body : Consumer A).
Variables (git_root : Path) (revision : string) (enable_isort : bool)
  (black_args : BlackArgs).
Variables (path_in_repo src : Path) (worktree_content edited_content : string).

Let edited_lines : list string := splitlines edited_content.
Let max_context_lines : nat := length edited_lines.

(** The test of the [if] that leaves the loop before Black is run. *)
Definition no_changes_after_isort (edited_linenums : list nat) : bool :=
  enable_isort
  && bool_decide (edited_linenums = [])
  && bool_decide (edited_content = worktree_content).

(** [for context_lines in range: ...], on the values of the range still to
    be visited.  [break] returns, [continue] goes to the rest of the range,
    [raise] raises. *)
Fixpoint for_context_lines (range : list nat) (acc : A) : M event A :=
  match range with
  | [] => ret acc
  | context_lines :: range' =>
      emit (EvRevisionVsLines path_in_repo edited_lines context_lines) ;;;
      let edited_linenums :=
        revision_vs_lines git_root revision path_in_repo edited_lines
          context_lines in
      if no_changes_after_isort edited_linenums then ret acc
      else
        emit (EvRunBlack src edited_content black_args) ;;;
        formatted <- of_sum (run_black src edited_content black_args) ;;
        emit (EvDiffAndGetOpcodes edited_lines formatted) ;;;
        let opcodes := diff_and_get_opcodes edited_lines formatted in
        emit (EvOpcodesToChunks opcodes edited_lines formatted) ;;;
        let black_chunks := opcodes_to_chunks opcodes edited_lines formatted in
        emit (EvChooseLines black_chunks edited_linenums) ;;;
        let chosen_lines := choose_lines black_chunks edited_linenums in
        emit (EvJoinlines chosen_lines) ;;;
        let result_str := joinlines chosen_lines in
        emit (EvVerifyAstUnchanged edited_content result_str black_chunks
                edited_linenums) ;;;
        match
          verify_ast_unchanged edited_content result_str black_chunks
            edited_linenums
        with
        | Some NotEquivalentError =>
            if Nat.eqb context_lines max_context_lines
            then raise NotEquivalentError
            else for_context_lines range' acc
        | Some e => raise e
        | None =>
            if bool_decide (result_str ≠ worktree_content)
            then yield body (src, worktree_content, result_str, chosen_lines)
                   acc
            else ret acc
        end
  end.

(** The loop over [range(max_context_lines + 1)]. *)
Definition retry_loop (acc : A) : M event A :=
  for_context_lines (seq 0 (max_context_lines + 1)) acc.

End OneFile.

(** The body of [for path_in_repo in sorted(changed_files)]. *)
Definition format_file {A} (body : Consumer A) (git_root : Path)
    (revision : string) (enable_isort : bool) (black_args : BlackArgs)
    (path_in_repo : Path) (acc : A) : M event A :=
  let src := joinpath git_root path_in_repo in
  worktree_content <- read_text src ;;
  edited_content <-
    (if enable_isort then
       emit (EvApplyIsort worktree_content src (config black_args)
               (line_length black_args)) ;;;
       ret (apply_isort worktree_content src (config black_args)
              (line_length black_args))
     else ret worktree_content) ;;
  retry_loop body git_root revision enable_isort black_args path_in_repo src
    worktree_content edited_content acc.

(** [for path_in_repo in sorted(changed_files): ...] *)
Fixpoint for_files {A} (body : Consumer A) (git_root : Path)
    (revision : string) (enable_isort : bool) (black_args : BlackArgs)
    (files : list Path) (acc : A) : M event A :=
  match files with
  | [] => ret acc
  | path_in_repo :: files' =>
      acc' <- format_file body git_root revision enable_isort black_args
                path_in_repo acc ;;
      for_files body git_root revision enable_isort black_args files' acc'
  end.

(** [for linter_cmdline in linter_cmdlines: run_linter(...)] *)
Fixpoint for_linters (git_root : Path) (changed_files : gset Path)
    (revision : string) (linter_cmdlines : list string) : M event unit :=
  match linter_cmdlines with
  | [] => ret tt
  | linter_cmdline :: rest =>
      emit (EvRunLinter linter_cmdline git_root changed_files revision) ;;;
      match run_linter linter_cmdline git_root changed_files revision with
      | Some e => raise e
      | None => for_linters git_root changed_files revision rest
      end
  end.

(** [format_edited_parts], consumed by a [for] loop with body [body] whose
    local variables start as [acc]. *)
Definition format_edited_parts {A} (srcs : gset Path) (revision : string)
    (enable_isort : bool) (linter_cmdlines : list string)
    (black_args : BlackArgs) (body : Consumer A) (acc : A) : M event A :=
  let git_root := get_common_root srcs in
  let changed_files := git_get_modified_files srcs revision git_root in
  acc' <- for_files body git_root revision enable_isort black_args
            (sorted changed_files) acc ;;
  for_linters git_root changed_files revision linter_cmdlines ;;;
  ret acc'.

(** *** [main]

    The logging set-up and the dump of the configuration at debug level only
    write to the terminal and are left out. *)

(** The three [if]s that fill [black_args]: a key is set when the option is
    truthy ([skip_string_normalization]: when it is not [None]). *)
Definition make_black_args (args : Namespace) : BlackArgs :=
  {| config :=
       match args_config args with
       | Some c => if bool_decide (c = "") then None else Some c
       | None => None
       end;
     line_length :=
       match args_line_length args with
       | Some n => if Z.eqb n 0 then None else Some n
       | None => None
       end;
     skip_string_normalization := args_skip_string_normalization args |}.

(** The body of the [for] loop of [main]; its local variable is
    [some_files_changed]. *)
Definition main_body (args : Namespace) : Consumer bool :=
  λ '(path, old_content, new_content, new_lines) _,
    (if args_diff args then
       rel <- of_sum (relative_to_cwd path) ;;
       emit (EvPostGhSuggestion rel old_content new_lines) ;;;
       match post_gh_suggestion rel old_content new_lines with
       | Some e => raise e
       | None => ret tt
       end
     else ret tt) ;;;
    (if negb (args_check args) && negb (args_diff args)
     then modify_file path new_content
     else ret tt) ;;;
    ret true.

(** [argv], or [sys.argv[1:]] when it is [None]. *)
Definition effective_argv (argv : option (list string)) : list string :=
  match argv with
  | None => tail sys_argv
  | Some argv => argv
  end.

(** The generator as [main] runs it. *)
Definition main_loop (args : Namespace) : M event bool :=
  let black_args := make_black_args args in
  let paths : gset Path := list_to_set (args_src args) in
  format_edited_parts paths (args_revision args) (args_isort args)
    (args_lint args) black_args (main_body args) false.

Definition main (argv : option (list string)) : M event Z :=
  args <- of_sum (parse_command_line (effective_argv argv)) ;;
  if args_isort args && negb isort then raise (SystemExit 1)
  else
    some_files_changed <- main_loop args ;;
    ret (if args_check args && some_files_changed then 1%Z else 0%Z).

(** ** What a trace shows *)

(** The margins of the iterations of the retry loop, in order. *)
Definition margins_tried (tr : list event) : list nat :=
  omap (λ ev, match ev with
              | EvRevisionVsLines _ _ m => Some m
              | _ => None
              end) tr.

(** The number of iterations of the retry loop. *)
Definition iterations (tr : list event) : nat := length (margins_tried tr).

(** The tuples yielded. *)
Definition yields (tr : list event) : list Yielded :=
  omap (λ ev, match ev with EvYield y => Some y | _ => None end) tr.

(** The files read. *)
Definition files_read (tr : list event) : list Path :=
  omap (λ ev, match ev with EvReadText p => Some p | _ => None end) tr.

(** The linter command lines run. *)
Definition linters_run (tr : list event) : list string :=
  omap (λ ev, match ev with EvRunLinter c _ _ _ => Some c | _ => None end) tr.

(** The contents Black was run on. *)
Definition black_inputs (tr : list event) : list (Path * string * BlackArgs) :=
  omap (λ ev, match ev with
              | EvRunBlack s c a => Some (s, c, a)
              | _ => None
              end) tr.

(** The reformatted lines the differ was given. *)
Definition black_outputs (tr : list event) : list (list string) :=
  omap (λ ev, match ev with
              | EvDiffAndGetOpcodes _ b => Some b
              | _ => None
              end) tr.

(** The files [modify_file] wrote. *)
Definition files_written (tr : list event) : list (Path * string) :=
  omap (λ ev, match ev with
              | EvCaller (EvModifyFile p c) => Some (p, c)
              | _ => None
              end) tr.

(** The files [modify_file] wrote, among the calls of a consumer. *)
Definition caller_writes (tr : list caller_event) : list (Path * string) :=
  omap (λ e, match e with EvModifyFile p c => Some (p, c) | _ => None end) tr.

(** [main] is asked not to write: [--check] or [--diff] was given. *)
Definition quiet (args : Namespace) : bool :=
  args_check args || args_diff args.

(** Whether anything was yielded. *)
Definition some_yield (tr : list event) : bool :=
  match yields tr with
  | [] => false
  | _ :: _ => true
  end.

(** A run of the generator started with the flag [acc] on the disk [d]
    keeps the flag of [main] up to date: it returns [true] exactly when the
    flag was set or something was yielded; and when [quiet] it writes no
    file. *)
Definition tracks (quiet acc : bool) (d : Disk) (r : Run event bool) : Prop :=
  (∀ v, outcome r = Returned v → v = acc || some_yield (trace r))
  ∧ (quiet = true → disk r = d ∧ files_written (trace r) = []).

(** *** One iteration, step by step *)

Section Iteration.
Variables (git_root : Path) (revision : string) (black_args : BlackArgs).
Variables (path_in_repo src : Path) (edited_content : string).
Variable (formatted : list string).
Variable (context_lines : nat).

Definition edited_linenums_at : list nat :=
  revision_vs_lines git_root revision path_in_repo (splitlines edited_content)
    context_lines.

Definition black_chunks_of : list DiffChunk :=
  let edited_lines := splitlines edited_content in
  opcodes_to_chunks (diff_and_get_opcodes edited_lines formatted)
    edited_lines formatted.

Definition chosen_lines_at : list string :=
  choose_lines black_chunks_of edited_linenums_at.

Definition result_str_at : string := joinlines chosen_lines_at.

(** What [verify_ast_unchanged] does in this iteration. *)
Definition verdict_at : option exn :=
  verify_ast_unchanged edited_content result_str_at black_chunks_of
    edited_linenums_at.

(** The calls of an iteration that reaches the verification, in order. *)
Definition iteration_calls : list event :=
  let edited_lines := splitlines edited_content in
  [ EvRevisionVsLines path_in_repo edited_lines context_lines;
    EvRunBlack src edited_content black_args;
    EvDiffAndGetOpcodes edited_lines formatted;
    EvOpcodesToChunks (diff_and_get_opcodes edited_lines formatted)
      edited_lines formatted;
    EvChooseLines black_chunks_of edited_linenums_at;
    EvJoinlines chosen_lines_at;
    EvVerifyAstUnchanged edited_content result_str_at black_chunks_of
      edited_linenums_at ].

End Iteration.

(** The retry loop of one file, entered at margin [m]. *)
Definition retry_from {A} (body : Consumer A) (git_root : Path)
    (revision : string) (enable_isort : bool) (black_args : BlackArgs)
    (path_in_repo src : Path) (worktree_content edited_content : string)
    (m : nat) (acc : A) : M event A :=
  for_context_lines body git_root revision enable_isort black_args
    path_in_repo src worktree_content edited_content
    (seq m (length (splitlines edited_content) + 1 - m)) acc.

(** The calls of a file before its retry loop. *)
Definition prologue (enable_isort : bool) (black_args : BlackArgs)
    (src : Path) (worktree_content : string) : list event :=
  EvReadText src ::
  (if enable_isort
   then [EvApplyIsort worktree_content src (config black_args)
           (line_length black_args)]
   else []).

(** The content the retry loop of a file works on. *)
Definition edited_content_of (enable_isort : bool) (black_args : BlackArgs)
    (src : Path) (worktree_content : string) : string :=
  if enable_isort
  then apply_isort worktree_content src (config black_args)
         (line_length black_args)
  else worktree_content.

End Darker.

(** ** A small instance

    Concrete collaborators on which the functions above can be run: a
    formatter that puts spaces around the [=] of the line [x=1], a differ
    that makes one chunk of the whole file, the chooser of the package on
    those chunks, and a differ against the revision and a verifier that are
    given as tables. *)

Module Demo.

Definition nl : string := String (ascii_of_nat 10) EmptyString.

Definition Chunk : Type := (nat * list string * list string)%type.

Definition slice (l : list string) (i j : nat) : list string :=
  take (j - i) (drop i l).

Definition diff (a b : list string) : list Opcode :=
  [(if bool_decide (a = b) then "equal" else "replace",
    0, length a, 0, length b)].

Definition chunks (ops : list Opcode) (a b : list string) : list Chunk :=
  map (λ '(_, i1, i2, j1, j2), (i1 + 1, slice a i1 i2, slice b j1 j2)) ops.

Definition touched (linenums : list nat) (c : Chunk) : bool :=
  let '(start, old, _) := c in
  existsb (λ n, Nat.leb start n && Nat.ltb n (start + length old)) linenums.

Definition choose (cs : list Chunk) (linenums : list nat) : list string :=
  List.concat (map (λ c, if touched linenums c then c.2 else c.1.2) cs).

Definition join (lines : list string) : string :=
  fold_right (λ l s, l +:+ nl +:+ s) "" lines.

Definition black (content : string) : exn + list string :=
  if bool_decide (content = "(" +:+ nl)
  then inl (Exception "InvalidInput")
  else inr (map (λ l, if bool_decide (l = "x=1") then "x = 1" else l)
              (splitlines content)).

Definition unsorted_imports : string := "import b" +:+ nl +:+ "import a" +:+ nl.
Definition sorted_imports : string := "import a" +:+ nl +:+ "import b" +:+ nl.

Definition sort_imports (content : string) : string :=
  if bool_decide (content = unsorted_imports) then sorted_imports
  else content.

Definition flag (name : string) (argv : list string) : bool :=
  bool_decide (name ∈ argv).

Definition parse (argv : list string) : exn + Namespace :=
  if flag "--help" argv then inl (SystemExit 0)
  else inr {| args_src :=
                filter (λ a, a ∉ ["--check"; "--diff"; "--isort"]) argv;
              args_revision := "HEAD";
              args_isort := flag "--isort" argv;
              args_lint := [];
              args_config := None;
              args_line_length := None;
              args_skip_string_normalization := None;
              args_check := flag "--check" argv;
              args_diff := flag "--diff" argv |}.

(** [edits m] are the edited line numbers at margin [m], [verify linenums]
    what the verifier does when those were the edited lines, and [changed]
    the modified files, sorted. *)
Definition collaborators (edits : nat → list nat)
    (verify : list nat → option exn) (changed : list Path) : Collaborators :=
  {| DiffChunk := Chunk;
     get_common_root := λ _, "/repo";
     git_get_modified_files := λ _ _ _, list_to_set changed;
     sorted := λ _, changed;
     joinpath := λ root p, root +:+ "/" +:+ p;
     apply_isort := λ content _ _ _, sort_imports content;
     revision_vs_lines := λ _ _ _ _ m, edits m;
     run_black := λ _ content _, black content;
     diff_and_get_opcodes := diff;
     opcodes_to_chunks := chunks;
     choose_lines := choose;
     joinlines := join;
     verify_ast_unchanged := λ _ _ _ linenums, verify linenums;
     sys_argv := ["darker"; "a.py"];
     parse_command_line := parse;
     isort := true;
     relative_to_cwd := λ p, inr p;
     post_gh_suggestion := λ _ _ _, None;
     run_linter := λ _ _ _ _, None |}.

(** The verifier accepts once at least [k] lines count as edited. *)
Definition accepts_from (k : nat) (linenums : list nat) : option exn :=
  if Nat.leb k (length linenums) then None else Some NotEquivalentError.

(** Line 1 is edited; each unit of margin adds the next line. *)
Definition widening (m : nat) : list nat := seq 1 (m + 1).

(** Nothing is edited. *)
Definition no_edits (m : nat) : list nat := [].

Definition no_args : BlackArgs :=
  {| config := None; line_length := None; skip_string_normalization := None |}.

(** A consumer that does nothing. *)
Definition ignore : Consumer unit := λ _ _, ret tt.

(** Contents: two lines of which Black rewrites the first, and a line Black
    cannot parse. *)
Definition two_lines : string := "x=1" +:+ nl +:+ "y=2" +:+ nl.
Definition two_lines_formatted : list string := ["x = 1"; "y=2"].
Definition bad_syntax : string := "(" +:+ nl.

(** The verifier accepts at margin 1. *)
Definition retrying : Collaborators :=
  collaborators widening (accepts_from 2) ["a.py"].

(** The verifier never accepts; two files are modified. *)
Definition hopeless : Collaborators :=
  collaborators widening (accepts_from 9) ["a.py"; "b.py"].

(** The file is as in the revision. *)
Definition unedited : Collaborators :=
  collaborators no_edits (accepts_from 0) ["a.py"].

(** The verifier always accepts. *)
Definition accepting : Collaborators :=
  collaborators widening (accepts_from 0) ["a.py"].

(** A disk with [a.py], and one with [a.py] and [b.py]. *)
Definition one_file (content : string) : Disk :=
  {[ "/repo/a.py" := content ]}.
Definition two_files (content : string) : Disk :=
  <[ "/repo/b.py" := content ]> (one_file content).

(** The retry loop of [a.py] holding the two lines, without isort, entered
    at margin [m], and its loop on a given range. *)
Definition retry_two_lines (C : Collaborators) (m : nat) : Run event unit :=
  retry_from ignore "/repo" "HEAD" false no_args "a.py" "/repo/a.py"
    two_lines two_lines m tt ∅.
Definition loop_two_lines (C : Collaborators) (range : list nat)
  : Run event unit :=
  for_context_lines ignore "/repo" "HEAD" false no_args "a.py" "/repo/a.py"
    two_lines two_lines range tt ∅.

(** [a.py] as in the revision, processed without isort. *)
Definition unedited_run : Run (@event unedited) unit :=
  format_file ignore "/repo" "HEAD" false no_args "a.py" tt
    (one_file two_lines).

(** [a.py] with unsorted imports, processed with isort. *)
Definition isort_only_run : Run (@event accepting) unit :=
  format_file ignore "/repo" "HEAD" true no_args "a.py" tt
    (one_file unsorted_imports).

(** [a.py] and [b.py] with a verifier that never accepts, and a linter. *)
Definition hopeless_batch : Run (@event hopeless) unit :=
  format_edited_parts (list_to_set ["a.py"; "b.py"]) "HEAD" false ["pylint"]
    no_args ignore tt (two_files two_lines).

(** The namespace of [darker --check a.py] and of [darker --diff a.py]. *)
Definition check_args : Namespace :=
  {| args_src := ["a.py"]; args_revision := "HEAD"; args_isort := false;
     args_lint := []; args_config := None; args_line_length := None;
     args_skip_string_normalization := None;
     args_check := true; args_diff := false |}.
Definition diff_args : Namespace :=
  {| args_src := ["a.py"]; args_revision := "HEAD"; args_isort := false;
     args_lint := []; args_config := None; args_line_length := None;
     args_skip_string_normalization := None;
     args_check := false; args_diff := true |}.

End Demo.

(** ** More of what a run shows *)

Section DarkerMore.
Context `{Collaborators}.

(** The disk after the writes [ws], oldest first. *)
Definition apply_writes (ws : list (Path * string)) (d : Disk) : Disk :=
  foldl (λ d' w, <[w.1 := w.2]> d') d ws.

(** What [main] writes for a yielded tuple when it writes. *)
Definition write_of (y : Yielded) : Path * string :=
  let '(path, _, new_content, _) := y in (path, new_content).

(** The source path of a yielded tuple. *)
Definition yielded_src (y : Yielded) : Path :=
  let '(src, _, _, _) := y in src.

(** A yielded tuple is a change: the new content is the join of the new
    lines and is not the old content. *)
Definition is_change (y : Yielded) : Prop :=
  let '(_, old_content, new_content, new_lines) := y in
  new_content = joinlines new_lines ∧ new_content ≠ old_content.

(** A call of the generator itself: no [yield], no call of its consumer. *)
Definition generator_call (ev : event) : bool :=
  match ev with
  | EvYield _ | EvCaller _ => false
  | _ => true
  end.

Definition silent (evs : list event) : Prop :=
  forallb generator_call evs = true.

End DarkerMore.

(** ** [post_gh_suggestion]

    The function [main] calls with [--diff].  It reads the GitHub event of the
    pull request, deletes the review comments it finds there, turns the
    opcodes of the diff between the old and the new lines into suggestions,
    and posts them as one review.  Its [print]s are left out, as the logging
    is; its HTTP requests are the calls a run records.  The modules [json]
    and [requests] it imports are taken to be installed, and the API to
    answer with a list of comments that have a user, a body and a URL. *)

Module Suggestion.

(** The headers of every request. *)
Record Headers : Type := mkHeaders {
  authorization : string;
  accept : string
}.

(** A review comment as the API returns it: the fields the function reads. *)
Record Comment : Type := mkComment {
  c_login : string;
  c_id : Z;
  c_body : string;
  c_url : string
}.

(** A comment of the review that is posted; [start_line] and [start_side] are
    keys that may be absent. *)
Record ReviewComment : Type := mkReviewComment {
  rc_body : string;
  rc_path : string;
  rc_line : nat;
  rc_side : string;
  rc_start_line : option nat;
  rc_start_side : option string
}.

(** The review that is posted. *)
Record Review : Type := mkReview {
  rv_body : string;
  rv_commit_id : string;
  rv_event : string;
  rv_comments : list ReviewComment
}.

(** An element of [changes]: [(path, start, end, body)]. *)
Definition Change : Type := (string * nat * nat * string)%type.

(** The requests. *)
Inductive http_event : Type :=
| EvGet (url : string) (headers : Headers)
| EvDelete (url : string) (headers : Headers)
| EvPost (url : string) (json : Review) (headers : Headers).

(** What the function takes from the process and from the network.
    [github_event] is what the [try] block computes, the
    [review_comments_url] and the head [sha] of the pull request, or [None]
    when anything in it raises. *)
Class GitHub : Type := {
  (** [os.environ.get("GITHUB_TOKEN", None)] *)
  github_token : option string;
  github_event : option (string * string);
  (** [requests.get(url, headers=headers).json()] *)
  requests_get_json : string → Headers → exn + list Comment;
  (** [requests.delete(url, headers=headers)] *)
  requests_delete : string → Headers → option exn;
  (** [requests.post(url, json=json, headers=headers)], [res.json()] and
      [res.raise_for_status()] *)
  requests_post : string → Review → Headers → option exn
}.

Definition COMFORT_FADE : string :=
  "application/vnd.github.comfort-fade-preview+json".

Definition newline : string := String (ascii_of_nat 10) EmptyString.

(** [l[i:j]] for integers [i] and [j]: a negative index counts from the
    end, and both are clamped to the list. *)
Definition py_index (n : nat) (i : Z) : nat :=
  if (i <? 0)%Z then Z.to_nat (Z.max 0 (i + Z.of_nat n))
  else Nat.min (Z.to_nat i) n.

Definition py_slice {X} (l : list X) (i j : Z) : list X :=
  let a := py_index (length l) i in
  let b := py_index (length l) j in
  take (b - a) (drop a l).

(** [s.rsplit("/", maxsplit=1)[0]]: what is before the last slash, or all of
    [s] when it has none. *)
Definition is_slash (c : ascii) : bool := Nat.eqb (nat_of_ascii c) 47.

Fixpoint after_first_slash (cs : list ascii) : option (list ascii) :=
  match cs with
  | [] => None
  | c :: cs' => if is_slash c then Some cs' else after_first_slash cs'
  end.

Definition rsplit_slash_head (s : string) : string :=
  match after_first_slash (rev (list_ascii_of_string s)) with
  | Some before => string_of_list_ascii (rev before)
  | None => s
  end.

(** The f-string that is the body of a suggestion. *)
Definition suggestion_body (action : string) (x y z t : nat)
    (sugg old_cont : string) : string :=
  newline
  +:+ "from " +:+ pretty x +:+ " to " +:+ pretty y +:+ " : " +:+ action
  +:+ newline
  +:+ "```suggestion" +:+ sugg +:+ newline
  +:+ "```" +:+ newline
  +:+ "should replace (" +:+ pretty z +:+ ", " +:+ pretty t +:+ "):"
  +:+ newline
  +:+ "```" +:+ newline
  +:+ old_cont +:+ newline
  +:+ newline
  +:+ "```" +:+ newline
  +:+ "<!-- darker-autoreformat-action -->" +:+ newline
  +:+ "            ".

(** One turn of the loop over the opcodes: the change that is appended,
    [None] for [continue], or the [ValueError]. *)
Definition change_of (path : string) (old_lines new_lines : list string)
    (op : Opcode) : exn + option Change :=
  let '(action, x, y, z, t) := op in
  if bool_decide (action = "replace") then
    let old_cont :=
      String.concat newline (py_slice old_lines (Z.of_nat x) (Z.of_nat y)) in
    let sugg :=
      newline
      +:+ String.concat newline
            (py_slice new_lines (Z.of_nat z) (Z.of_nat t)) in
    inr (Some (path, x + 1, y, suggestion_body action x y z t sugg old_cont))
  else if bool_decide (action = "insert") then
    let old_cont :=
      String.concat newline
        (py_slice old_lines (Z.of_nat x - 1) (Z.of_nat y)) in
    let sugg :=
      newline
      +:+ String.concat newline
            (py_slice new_lines (Z.of_nat z - 1) (Z.of_nat t)) in
    inr (Some (path, x, y, suggestion_body action x y z t sugg old_cont))
  else if bool_decide (action = "delete") then inr None
  else if bool_decide (action = "equal") then inr None
  else inl (Exception "ValueError").

(** The loop over the opcodes. *)
Fixpoint changes_of (path : string) (old_lines new_lines : list string)
    (opcodes : list Opcode) (changes : list Change) : exn + list Change :=
  match opcodes with
  | [] => inr changes
  | op :: opcodes' =>
      match change_of path old_lines new_lines op with
      | inl e => inl e
      | inr None => changes_of path old_lines new_lines opcodes' changes
      | inr (Some change) =>
          changes_of path old_lines new_lines opcodes' (changes ++ [change])
      end
  end.

(** The dictionary [suggests] makes of a change. *)
Definition review_comment (change : Change) : ReviewComment :=
  let '(path, start, end_, body) := change in
  {| rc_body := body;
     rc_path := path;
     rc_line := end_;
     rc_side := "RIGHT";
     rc_start_line := if bool_decide (start ≠ end_) then Some start else None;
     rc_start_side :=
       if bool_decide (start ≠ end_) then Some "RIGHT" else None |}.

Definition review_body : string :=
  "This is an automated review from GitHub action that suggest changes to autoformat the code using Darker.".

Section Suggestion.
Context `{Collaborators} `{GitHub}.

(** [for comment in data: ... requests.delete(comment["url"], ...)] *)
Fixpoint for_comments (headers : Headers) (data : list Comment)
  : M http_event unit :=
  match data with
  | [] => ret tt
  | comment :: data' =>
      emit (EvDelete (c_url comment) headers) ;;;
      match requests_delete (c_url comment) headers with
      | Some e => raise e
      | None => for_comments headers data'
      end
  end.

(** The inner function [post]. *)
Definition post (mock : bool) (url : string) (json : Review)
    (headers : Headers) : M http_event unit :=
  if negb mock then
    emit (EvPost url json headers) ;;;
    match requests_post url json headers with
    | Some e => raise e
    | None => ret tt
    end
  else ret tt.

(** The inner function [suggests]. *)
Definition suggests (mock : bool) (headers : Headers)
    (changes : list Change) (head_sha comment_url : string)
  : M http_event unit :=
  let review_url := rsplit_slash_head comment_url +:+ "/reviews" in
  let comments := map review_comment changes in
  let review_data :=
    {| rv_body := review_body;
       rv_commit_id := head_sha;
       rv_event :=
         match comments with
         | [] => "APPROVE"
         | _ :: _ => "REQUEST_CHANGES"
         end;
       rv_comments := comments |} in
  post mock review_url review_data headers.

(** The dictionary [headers]; [None] is formatted as its name. *)
Definition request_headers : Headers :=
  {| authorization :=
       "Bearer " +:+ match github_token with
                     | Some token => token
                     | None => "None"
                     end;
     accept := COMFORT_FADE |}.

Definition post_gh_suggestion (path old_content : string)
    (new_lines : list string) : M http_event unit :=
  let '(comment_url, commit_id, mock) :=
    match github_event with
    | Some (url, sha) => (url, sha, false)
    | None => ("Mock URL", "MOCK ID", true)
    end in
  let headers := request_headers in
  data <-
    (if negb mock then
       emit (EvGet comment_url headers) ;;;
       data <- of_sum (requests_get_json comment_url headers) ;;
       ret (Some data)
     else ret None) ;;
  data <-
    match data with
    | Some data => ret data
    | None => raise (Exception "UnboundLocalError")
    end ;;
  for_comments headers data ;;;
  changes <-
    of_sum (changes_of path (splitlines old_content) new_lines
              (diff_and_get_opcodes (splitlines old_content) new_lines) []) ;;
  suggests mock headers (take 15 changes) commit_id comment_url.

(** The deletions and the reviews among the requests. *)
Definition deletions (tr : list http_event) : list string :=
  omap (λ ev, match ev with EvDelete url _ => Some url | _ => None end) tr.

Definition reviews (tr : list http_event) : list (string * Review) :=
  omap (λ ev, match ev with
              | EvPost url json _ => Some (url, json)
              | _ => None
              end) tr.

(** The opcodes that become suggestions. *)
Definition suggested (op : Opcode) : bool :=
  let '(action, _, _, _, _) := op in
  bool_decide (action = "replace") || bool_decide (action = "insert").

(** The opcodes the loop knows. *)
Definition known (op : Opcode) : bool :=
  let '(action, _, _, _, _) := op in
  bool_decide (action ∈ ["replace"; "insert"; "delete"; "equal"]).

(** What [main] sees of [post_gh_suggestion]. *)
Definition seen_from_main (path old_content : string)
    (new_lines : list string) : option exn :=
  match outcome (post_gh_suggestion path old_content new_lines ∅) with
  | Returned _ => None
  | Raised e => Some e
  end.

End Suggestion.

End Suggestion.

(** ** More small instances *)

Module Demo2.

(** The small instance on [a.py] with a chosen verifier, differ, outcome of
    [post_gh_suggestion], presence of isort and outcome of a linter. *)
Definition with_linter (verify : list nat → option exn)
    (diff : list string → list string → list Opcode)
    (post : string → string → list string → option exn) (has_isort : bool)
    (lint : string → option exn)
  : Collaborators :=
  {| DiffChunk := Demo.Chunk;
     get_common_root := λ _, "/repo";
     git_get_modified_files := λ _ _ _, list_to_set ["a.py"];
     sorted := λ _, ["a.py"];
     joinpath := λ root p, root +:+ "/" +:+ p;
     apply_isort := λ content _ _ _, Demo.sort_imports content;
     revision_vs_lines := λ _ _ _ _ m, Demo.widening m;
     run_black := λ _ content _, Demo.black content;
     diff_and_get_opcodes := diff;
     opcodes_to_chunks := Demo.chunks;
     choose_lines := Demo.choose;
     joinlines := Demo.join;
     verify_ast_unchanged := λ _ _ _ linenums, verify linenums;
     sys_argv := ["darker"; "a.py"];
     parse_command_line := Demo.parse;
     isort := has_isort;
     relative_to_cwd := λ p, inr p;
     post_gh_suggestion := post;
     run_linter := λ cmdline _ _ _, lint cmdline |}.

(** The same with linters that succeed. *)
Definition collaborators (verify : list nat → option exn)
    (diff : list string → list string → list Opcode)
    (post : string → string → list string → option exn) (has_isort : bool)
  : Collaborators :=
  with_linter verify diff post has_isort (λ _, None).

Definition quiet_post (path old_content : string) (new_lines : list string)
  : option exn := None.

(** The linter [mypy] is not installed: starting it raises. *)
Definition missing_mypy (cmdline : string) : option exn :=
  if bool_decide (cmdline = "mypy") then Some (FileNotFoundError "mypy")
  else None.

Definition without_mypy : Collaborators :=
  with_linter (Demo.accepts_from 0) Demo.diff quiet_post true missing_mypy.

(** [a.py] with three linters, of which the second is [mypy]. *)
Definition three_linters : Run (@event without_mypy) unit :=
  format_edited_parts (list_to_set ["a.py"]) "HEAD" false
    ["pylint"; "mypy"; "flake8"] Demo.no_args Demo.ignore tt
    (Demo.one_file Demo.two_lines).

(** The verifier raises another exception than [NotEquivalentError]. *)
Definition crashing : Collaborators :=
  collaborators (λ _, Some (Exception "SyntaxError")) Demo.diff quiet_post
    true.

(** isort is not installed. *)
Definition without_isort : Collaborators :=
  collaborators (Demo.accepts_from 0) Demo.diff quiet_post false.

(** A diff that only deletes, and one with a tag the loop does not know. *)
Definition deleting_diff (a b : list string) : list Opcode :=
  [("equal", 0, 1, 0, 1); ("delete", 1, 2, 1, 1)].
Definition moving_diff (a b : list string) : list Opcode :=
  [("equal", 0, 1, 0, 1); ("move", 1, 2, 1, 2)].

Definition with_diff (diff : list string → list string → list Opcode)
  : Collaborators :=
  collaborators (Demo.accepts_from 0) diff quiet_post true.

(** No GitHub event, and a pull request with two comments. *)
Definition offline : Suggestion.GitHub :=
  {| Suggestion.github_token := None;
     Suggestion.github_event := None;
     Suggestion.requests_get_json := λ _ _, inl (Exception "ConnectionError");
     Suggestion.requests_delete := λ _ _, None;
     Suggestion.requests_post := λ _ _ _, None |}.

Definition comments_url : string :=
  "https://api.github.com/repos/o/r/pulls/7/comments".

Definition human_comment : Suggestion.Comment :=
  Suggestion.mkComment "alice" 7 "Looks good to me"
    "https://api.github.com/repos/o/r/pulls/comments/1".
Definition bot_comment : Suggestion.Comment :=
  Suggestion.mkComment "github-actions[bot]" 41898282
    "<!-- darker-autoreformat-action -->"
    "https://api.github.com/repos/o/r/pulls/comments/2".

Definition online : Suggestion.GitHub :=
  {| Suggestion.github_token := Some "t0k3n";
     Suggestion.github_event := Some (comments_url, "abc123");
     Suggestion.requests_get_json := λ _ _, inr [human_comment; bot_comment];
     Suggestion.requests_delete := λ _ _, None;
     Suggestion.requests_post := λ _ _ _, None |}.

(** [main] with [post_gh_suggestion] as it runs without a GitHub event. *)
Definition offline_main : Collaborators :=
  collaborators (Demo.accepts_from 0) Demo.diff
    (@Suggestion.seen_from_main (with_diff Demo.diff) offline) true.

(** The namespaces of [darker a.py] and of [darker --isort a.py]. *)
Definition write_args : Namespace :=
  {| args_src := ["a.py"]; args_revision := "HEAD"; args_isort := false;
     args_lint := []; args_config := None; args_line_length := None;
     args_skip_string_normalization := None;
     args_check := false; args_diff := false |}.
Definition isort_args : Namespace :=
  {| args_src := ["a.py"]; args_revision := "HEAD"; args_isort := true;
     args_lint := []; args_config := None; args_line_length := None;
     args_skip_string_normalization := None;
     args_check := false; args_diff := false |}.

End Demo2.

(** ** The Black options as the dict they are

    [main] builds [black_args] once, and every call of [apply_isort] and of
    [run_black], for every file and at every margin, is handed that one
    dict.  A [run_black] that changes the dict it is given changes what the
    later calls see.  In this model of [format_edited_parts] the dict goes
    from call to call; the model above is this one when [run_black] leaves
    the dict as it is. *)

Module Shared.

(** [darker.black_diff.run_black src content black_args], given the dict
    itself: its value or the exception it raises, and the dict as the call
    leaves it. *)
Class Black : Type := {
  run_black : Path → string → BlackArgs → (exn + list string) * BlackArgs
}.

Section Shared.
Context `{Collaborators} `{Black}.

Section OneFile.
Context {A : Type} (body : Consumer A).
Variables (git_root : Path) (revision : string) (enable_isort : bool).
Variables (path_in_repo src : Path) (worktree_content edited_content : string).

Let edited_lines : list string := splitlines edited_content.
Let max_context_lines : nat := length edited_lines.

(** [for context_lines in range: ...], with the dict as the iterations
    before this one left it; the loop returns the dict with its value. *)
Fixpoint for_context_lines (range : list nat) (black_args : BlackArgs)
    (acc : A) : M event (A * BlackArgs) :=
  match range with
  | [] => ret (acc, black_args)
  | context_lines :: range' =>
      emit (EvRevisionVsLines path_in_repo edited_lines context_lines) ;;;
      let edited_linenums :=
        revision_vs_lines git_root revision path_in_repo edited_lines
          context_lines in
      if no_changes_after_isort enable_isort worktree_content edited_content
           edited_linenums
      then ret (acc, black_args)
      else
        emit (EvRunBlack src edited_content black_args) ;;;
        let called := run_black src edited_content black_args in
        formatted <- of_sum called.1 ;;
        let black_args := called.2 in
        emit (EvDiffAndGetOpcodes edited_lines formatted) ;;;
        let opcodes := diff_and_get_opcodes edited_lines formatted in
        emit (EvOpcodesToChunks opcodes edited_lines formatted) ;;;
        let black_chunks := opcodes_to_chunks opcodes edited_lines formatted in
        emit (EvChooseLines black_chunks edited_linenums) ;;;
        let chosen_lines := choose_lines black_chunks edited_linenums in
        emit (EvJoinlines chosen_lines) ;;;
        let result_str := joinlines chosen_lines in
        emit (EvVerifyAstUnchanged edited_content result_str black_chunks
                edited_linenums) ;;;
        match
          verify_ast_unchanged edited_content result_str black_chunks
            edited_linenums
        with
        | Some NotEquivalentError =>
            if Nat.eqb context_lines max_context_lines
            then raise NotEquivalentError
            else for_context_lines range' black_args acc
        | Some e => raise e
        | None =>
            if bool_decide (result_str ≠ worktree_content)
            then
              acc' <- yield body
                        (src, worktree_content, result_str, chosen_lines)
                        acc ;;
              ret (acc', black_args)
            else ret (acc, black_args)
        end
  end.

Definition retry_loop (black_args : BlackArgs) (acc : A)
  : M event (A * BlackArgs) :=
  for_context_lines (seq 0 (max_context_lines + 1)) black_args acc.

End OneFile.

(** The body of [for path_in_repo in sorted(changed_files)]: [apply_isort]
    is given what the dict holds when the file is reached. *)
Definition format_file {A} (body : Consumer A) (git_root : Path)
    (revision : string) (enable_isort : bool) (path_in_repo : Path)
    (black_args : BlackArgs) (acc : A) : M event (A * BlackArgs) :=
  let src := joinpath git_root path_in_repo in
  worktree_content <- read_text src ;;
  edited_content <-
    (if enable_isort then
       emit (EvApplyIsort worktree_content src (config black_args)
               (line_length black_args)) ;;;
       ret (apply_isort worktree_content src (config black_args)
              (line_length black_args))
     else ret worktree_content) ;;
  retry_loop body git_root revision enable_isort path_in_repo src
    worktree_content edited_content black_args acc.

Fixpoint for_files {A} (body : Consumer A) (git_root : Path)
    (revision : string) (enable_isort : bool) (files : list Path)
    (black_args : BlackArgs) (acc : A) : M event (A * BlackArgs) :=
  match files with
  | [] => ret (acc, black_args)
  | path_in_repo :: files' =>
      done <- format_file body git_root revision enable_isort path_in_repo
                black_args acc ;;
      for_files body git_root revision enable_isort files' done.2 done.1
  end.

Definition format_edited_parts {A} (srcs : gset Path) (revision : string)
    (enable_isort : bool) (linter_cmdlines : list string)
    (black_args : BlackArgs) (body : Consumer A) (acc : A) : M event A :=
  let git_root := get_common_root srcs in
  let changed_files := git_get_modified_files srcs revision git_root in
  done <- for_files body git_root revision enable_isort
            (sorted changed_files) black_args acc ;;
  for_linters git_root changed_files revision linter_cmdlines ;;;
  ret done.1.

Definition main_loop (args : Namespace) : M event bool :=
  let black_args := make_black_args args in
  let paths : gset Path := list_to_set (args_src args) in
  format_edited_parts paths (args_revision args) (args_isort args)
    (args_lint args) black_args (main_body args) false.

Definition main (argv : option (list string)) : M event Z :=
  args <- of_sum (parse_command_line (effective_argv argv)) ;;
  if args_isort args && negb isort then raise (SystemExit 1)
  else
    some_files_changed <- main_loop args ;;
    ret (if args_check args && some_files_changed then 1%Z else 0%Z).

(** Each call of [run_black] in a trace is given the dict the call before it
    left, the first one [black_args]. *)
Fixpoint handed_on (black_args : BlackArgs)
    (calls : list (Path * string * BlackArgs)) : Prop :=
  match calls with
  | [] => True
  | (src, content, given) :: calls' =>
      given = black_args ∧ handed_on (run_black src content given).2 calls'
  end.

End Shared.

(** *** A [run_black] that takes the configuration file out of the dict

    [black.cfg] sets the line length to 10.  With it Black splits the call
    [print(a, b)]; without it the line is short enough.  [run_black] reads
    the name of the file with [black_args.pop], as the package does, so the
    key is gone from the dict of the caller once the call returns. *)







End Shared.

(** A [run_black] that leaves the dict as it is: the collaborator of the
    model above. *)
Definition keeps_the_dict `{Collaborators} : Shared.Black :=
  {| Shared.run_black := λ src content black_args,
       (run_black src content black_args, black_args) |}.

(** A run of the model above, seen as a run that returns the dict too. *)
Definition with_dict {E A} (black_args : BlackArgs) (r : Run E A)
  : Run E (A * BlackArgs) :=
  mkRun
    match outcome r with
    | Returned a => Returned (a, black_args)
    | Raised e => Raised e
    end
    (disk r) (trace r).

(** * Properties *)

(** ** [splitlines] on a few texts *)

Example splitlines_empty : splitlines "" = [].
Proof. reflexivity. Qed.

Example splitlines_two_lines :
  splitlines ("ab" +:+ Demo.nl +:+ "cd" +:+ Demo.nl) = ["ab"; "cd"].
Proof. reflexivity. Qed.

Example splitlines_blank_lines :
  splitlines (Demo.nl +:+ Demo.nl +:+ "x") = [""; ""; "x"].
Proof. reflexivity. Qed.

Example splitlines_crlf :
  splitlines ("a" +:+ String (ascii_of_nat 13) Demo.nl +:+ "b") = ["a"; "b"].
Proof. reflexivity. Qed.

(** ** Runs *)

Lemma bind_emit {E A} (ev : E) (k : M E A) (d : Disk) :
  (emit ev ;;; k) d = after [ev] (k d).
Proof. reflexivity. Qed.

Lemma after_nil {E A} (r : Run E A) : after [] r = r.
Proof. by destruct r. Qed.

Lemma after_after {E A} (evs evs' : list E) (r : Run E A) :
  after evs (after evs' r) = after (evs ++ evs') r.
Proof. unfold after; cbn. by rewrite app_assoc. Qed.

Lemma bind_ret {E A B} (a : A) (k : A → M E B) (d : Disk) :
  bind (ret a) k d = k a d.
Proof. unfold bind, ret; cbn. by destruct (k a d). Qed.

Lemma bind_ext {E A B} (c : M E A) (k k' : A → M E B) (d : Disk) :
  (∀ a d', k a d' = k' a d') → bind c k d = bind c k' d.
Proof. intros Hk. unfold bind. destruct (outcome (c d)); by rewrite ?Hk. Qed.

Lemma bind_assoc {E A B C} (c : M E A) (k : A → M E B) (k' : B → M E C)
    (d : Disk) :
  bind (bind c k) k' d = bind c (λ a, bind (k a) k') d.
Proof.
  unfold bind. destruct (c d) as [[a|e] d1 tr1]; cbn; [|reflexivity].
  destruct (k a d1) as [[b|e] d2 tr2]; cbn; [|reflexivity].
  by rewrite app_assoc.
Qed.

Lemma bind_returned {E A B} (c : M E A) (k : A → M E B) (d : Disk) (a : A) :
  outcome (c d) = Returned a →
  bind c k d = after (trace (c d)) (k a (disk (c d))).
Proof. unfold bind, after. by intros ->. Qed.

Lemma bind_raised {E A B} (c : M E A) (k : A → M E B) (d : Disk) (e : exn) :
  outcome (c d) = Raised e →
  bind c k d = mkRun (Raised e) (disk (c d)) (trace (c d)).
Proof. unfold bind. by intros ->. Qed.

Section Facts.
Context `{Collaborators}.

(** ** Reading traces *)

Lemma omap_caller {B} (f : event → option B) (tr : list caller_event) :
  (∀ e, f (EvCaller e) = None) → omap f (map EvCaller tr) = [].
Proof.
  intros Hf. induction tr as [|e tr IH]; [done|].
  cbn. by rewrite Hf.
Qed.

Lemma margins_tried_app (tr tr' : list event) :
  margins_tried (tr ++ tr') = margins_tried tr ++ margins_tried tr'.
Proof. apply omap_app. Qed.

Lemma margins_tried_caller (tr : list caller_event) :
  margins_tried (map EvCaller tr) = [].
Proof. by apply omap_caller. Qed.

Lemma yields_app (tr tr' : list event) :
  yields (tr ++ tr') = yields tr ++ yields tr'.
Proof. apply omap_app. Qed.

Lemma yields_caller (tr : list caller_event) : yields (map EvCaller tr) = [].
Proof. by apply omap_caller. Qed.

Lemma black_inputs_app (tr tr' : list event) :
  black_inputs (tr ++ tr') = black_inputs tr ++ black_inputs tr'.
Proof. apply omap_app. Qed.

Lemma black_inputs_caller (tr : list caller_event) :
  black_inputs (map EvCaller tr) = [].
Proof. by apply omap_caller. Qed.

Lemma black_outputs_app (tr tr' : list event) :
  black_outputs (tr ++ tr') = black_outputs tr ++ black_outputs tr'.
Proof. apply omap_app. Qed.

Lemma black_outputs_caller (tr : list caller_event) :
  black_outputs (map EvCaller tr) = [].
Proof. by apply omap_caller. Qed.

Lemma files_read_app (tr tr' : list event) :
  files_read (tr ++ tr') = files_read tr ++ files_read tr'.
Proof. apply omap_app. Qed.

Lemma files_read_caller (tr : list caller_event) :
  files_read (map EvCaller tr) = [].
Proof. by apply omap_caller. Qed.

Lemma linters_run_app (tr tr' : list event) :
  linters_run (tr ++ tr') = linters_run tr ++ linters_run tr'.
Proof. apply omap_app. Qed.

Lemma linters_run_caller (tr : list caller_event) :
  linters_run (map EvCaller tr) = [].
Proof. by apply omap_caller. Qed.

(** ** The retry loop of one file *)

Section OneFileFacts.
Context {A : Type} (body : Consumer A).
Variables (git_root : Path) (revision : string) (enable_isort : bool)
  (black_args : BlackArgs).
Variables (path_in_repo src : Path) (worktree_content edited_content : string).

Local Abbreviation loop :=
  (for_context_lines body git_root revision enable_isort black_args
     path_in_repo src worktree_content edited_content).
Local Abbreviation from :=
  (retry_from body git_root revision enable_isort black_args
     path_in_repo src worktree_content edited_content).
Local Abbreviation short_circuit :=
  (no_changes_after_isort enable_isort worktree_content edited_content).
Local Abbreviation linenums := 
  (edited_linenums_at git_root revision path_in_repo edited_content).
Local Abbreviation verdict :=
  (verdict_at git_root revision path_in_repo edited_content).
Local Abbreviation merged :=
  (result_str_at git_root revision path_in_repo edited_content).
Local Abbreviation chosen :=
  (chosen_lines_at git_root revision path_in_repo edited_content).
Local Abbreviation calls :=
  (iteration_calls git_root revision black_args path_in_repo src
     edited_content).
Local Abbreviation lines := (splitlines edited_content).
Local Abbreviation max_margin := (length (splitlines edited_content)).

(** One iteration of the loop, as a run. *)
Lemma for_context_lines_step (m : nat) (range : list nat) (acc : A) (d : Disk) :
  loop (m :: range) acc d =
  if short_circuit (linenums m)
  then mkRun (Returned acc) d [EvRevisionVsLines path_in_repo lines m]
  else
    match run_black src edited_content black_args with
    | inl e =>
        mkRun (Raised e) d
          [EvRevisionVsLines path_in_repo lines m;
           EvRunBlack src edited_content black_args]
    | inr formatted =>
        match verdict formatted m with
        | Some NotEquivalentError =>
            if Nat.eqb m max_margin
            then mkRun (Raised NotEquivalentError) d (calls formatted m)
            else after (calls formatted m) (loop range acc d)
        | Some e => mkRun (Raised e) d (calls formatted m)
        | None =>
            if bool_decide (merged formatted m ≠ worktree_content)
            then
              let y := (src, worktree_content, merged formatted m,
                        chosen formatted m) in
              after (calls formatted m ++ [EvYield y])
                (embed EvCaller (body y acc) d)
            else mkRun (Returned acc) d (calls formatted m)
        end
    end.
Proof.
  cbn [for_context_lines]. rewrite bind_emit.
  fold (linenums m).
  destruct (short_circuit (linenums m)); [reflexivity|].
  rewrite bind_emit.
  destruct (run_black src edited_content black_args) as [e|formatted];
    cbn [of_sum]; [reflexivity|].
  rewrite bind_ret, !bind_emit.
  unfold verdict_at, result_str_at, chosen_lines_at, black_chunks_of,
    iteration_calls; cbn zeta.
  destruct (verify_ast_unchanged _ _ _ _) as [[]|]; try reflexivity.
  - destruct (Nat.eqb m _); reflexivity.
  - case_bool_decide; reflexivity.
Qed.

Lemma retry_loop_from_0 (acc : A) (d : Disk) :
  retry_loop body git_root revision enable_isort black_args path_in_repo src
    worktree_content edited_content acc d = from 0 acc d.
Proof. unfold retry_loop, retry_from. by rewrite Nat.sub_0_r. Qed.

Lemma retry_from_step (m : nat) (acc : A) (d : Disk) :
  m ≤ max_margin →
  from m acc d = loop (m :: seq (S m) (max_margin + 1 - S m)) acc d.
Proof.
  intros Hm. unfold retry_from.
  replace (max_margin + 1 - m) with (S (max_margin + 1 - S m)) by lia.
  reflexivity.
Qed.

Lemma loop_starts_with_the_differ (m : nat) (range : list nat) (acc : A)
    (d : Disk) :
  ∃ rest,
    trace (loop (m :: range) acc d)
    = EvRevisionVsLines path_in_repo lines m :: rest.
Proof.
  rewrite for_context_lines_step.
  repeat (case_match; cbn [trace after app iteration_calls]); eauto.
Qed.

(** C1.  When the verification of the merged result raises
    [NotEquivalentError] in the iteration at margin [m]: below the maximum
    margin the loop goes on with the iteration at margin [m + 1], and the
    run is that of the rest of the loop, so the exception does not reach the
    caller; at the maximum margin the exception is raised to the caller. *)
Theorem verification_failure_retries_until_max_margin
    (m : nat) (formatted : list string) (acc : A) (d : Disk) :
  short_circuit (linenums m) = false →
  run_black src edited_content black_args = inr formatted →
  verdict formatted m = Some NotEquivalentError →
  (m < max_margin →
     from m acc d = after (calls formatted m) (from (S m) acc d)
     ∧ ∃ rest, trace (from (S m) acc d)
               = EvRevisionVsLines path_in_repo lines (S m) :: rest)
  ∧ (m = max_margin →
     from m acc d = mkRun (Raised NotEquivalentError) d (calls formatted m)).
Proof.
  intros Hshort Hblack Hverdict. split.
  - intros Hm. split.
    + rewrite retry_from_step, for_context_lines_step by lia.
      rewrite Hshort, Hblack, Hverdict.
      destruct (Nat.eqb_spec m max_margin); [lia|reflexivity].
    + rewrite retry_from_step by lia. apply loop_starts_with_the_differ.
  - intros Hm.
    rewrite retry_from_step, for_context_lines_step by lia.
    rewrite Hshort, Hblack, Hverdict.
    destruct (Nat.eqb_spec m max_margin); [reflexivity|lia].
Qed.

(** C6.  When [run_black] raises in an iteration, whatever its margin and
    whatever is left of the range, the loop ends there with that exception:
    the calls of the run are the differ against the revision and Black, and
    no later margin is tried. *)
Theorem black_failure_is_raised_at_once
    (m : nat) (range : list nat) (acc : A) (d : Disk) (e : exn) :
  short_circuit (linenums m) = false →
  run_black src edited_content black_args = inl e →
  loop (m :: range) acc d
  = mkRun (Raised e) d
      [EvRevisionVsLines path_in_repo lines m;
       EvRunBlack src edited_content black_args].
Proof.
  intros Hshort Hblack.
  by rewrite for_context_lines_step, Hshort, Hblack.
Qed.

(** C8.  An iteration that is not cut short calls, in this order: the differ
    against the revision at the current margin, Black on the edited content,
    the differ on the edited and the reformatted lines, the chunker on its
    opcodes and both line lists, the chooser on the chunks and the edited line
    numbers, [joinlines] on the chosen lines, and the verifier on the edited
    content and the joined result.  When Black raises, the iteration ends
    after the first two. *)
Theorem iteration_steps_in_order
    (m : nat) (range : list nat) (acc : A) (d : Disk) :
  let edited_lines := splitlines edited_content in
  let edited_linenums :=
    revision_vs_lines git_root revision path_in_repo edited_lines m in
  let r :=
    for_context_lines body git_root revision enable_isort black_args
      path_in_repo src worktree_content edited_content (m :: range) acc d in
  no_changes_after_isort enable_isort worktree_content edited_content
    edited_linenums = false →
  match run_black src edited_content black_args with
  | inr formatted =>
      let opcodes := diff_and_get_opcodes edited_lines formatted in
      let black_chunks := opcodes_to_chunks opcodes edited_lines formatted in
      let chosen_lines := choose_lines black_chunks edited_linenums in
      let result_str := joinlines chosen_lines in
      ∃ rest,
        trace r
        = [ EvRevisionVsLines path_in_repo edited_lines m;
            EvRunBlack src edited_content black_args;
            EvDiffAndGetOpcodes edited_lines formatted;
            EvOpcodesToChunks opcodes edited_lines formatted;
            EvChooseLines black_chunks edited_linenums;
            EvJoinlines chosen_lines;
            EvVerifyAstUnchanged edited_content result_str black_chunks
              edited_linenums ] ++ rest
  | inl e =>
      trace r
      = [ EvRevisionVsLines path_in_repo edited_lines m;
          EvRunBlack src edited_content black_args ]
  end.
Proof.
  cbn zeta. intros Hshort.
  change (short_circuit (linenums m) = false) in Hshort.
  rewrite for_context_lines_step, Hshort.
  destruct (run_black src edited_content black_args) as [e|formatted];
    [reflexivity|].
  repeat case_match; cbn [trace after]; eexists; reflexivity.
Qed.

Lemma margins_tried_calls (formatted : list string) (m : nat) :
  margins_tried (calls formatted m) = [m].
Proof. reflexivity. Qed.

Lemma yields_calls (formatted : list string) (m : nat) :
  yields (calls formatted m) = [].
Proof. reflexivity. Qed.

Lemma black_inputs_calls (formatted : list string) (m : nat) :
  black_inputs (calls formatted m) = [(src, edited_content, black_args)].
Proof. reflexivity. Qed.

Lemma black_outputs_calls (formatted : list string) (m : nat) :
  black_outputs (calls formatted m) = [formatted].
Proof. reflexivity. Qed.

(** Read the margins, yields and Black calls off the trace in the goal. *)
Ltac read_trace :=
  cbn [trace after embed];
  rewrite ?margins_tried_app, ?yields_app, ?black_inputs_app,
    ?black_outputs_app, ?margins_tried_caller, ?yields_caller,
    ?black_inputs_caller, ?black_outputs_caller, ?margins_tried_calls,
    ?yields_calls, ?black_inputs_calls, ?black_outputs_calls;
  cbn.

(** The margins tried are the first values of the range, in order. *)
Lemma margins_tried_prefix (range : list nat) (acc : A) (d : Disk) :
  margins_tried (trace (loop range acc d)) `prefix_of` range.
Proof.
  induction range as [|m range IH]; [done|].
  rewrite for_context_lines_step.
  repeat case_match; read_trace; try (apply prefix_cons, prefix_nil).
  apply prefix_cons, IH.
Qed.

Lemma loop_iterations (range : list nat) (acc : A) (d : Disk) :
  iterations (trace (loop range acc d)) ≤ length range.
Proof. apply prefix_length, margins_tried_prefix. Qed.

(** C3, as the code has it.  With isort enabled, when no line counts as
    edited at margin 0 and isort left the content as it was, the loop ends
    in its first iteration: the differ against the revision is its only
    call, so Black is not run, nothing is merged and nothing is yielded.
    Without isort the short-circuit is not taken, whatever the edited lines
    and the contents are: the first iteration goes on to run Black on the
    edited content. *)
Theorem unchanged_after_isort_short_circuits (acc : A) (d : Disk) :
  (enable_isort = true →
   linenums 0 = [] →
   edited_content = worktree_content →
   retry_loop body git_root revision enable_isort black_args path_in_repo src
     worktree_content edited_content acc d
   = mkRun (Returned acc) d [EvRevisionVsLines path_in_repo lines 0])
  ∧ (enable_isort = false →
     (∀ edited_linenums,
        no_changes_after_isort enable_isort worktree_content edited_content
          edited_linenums = false)
     ∧ ∃ rest,
         trace (retry_loop body git_root revision enable_isort black_args
                  path_in_repo src worktree_content edited_content acc d)
         = EvRevisionVsLines path_in_repo lines 0
           :: EvRunBlack src edited_content black_args :: rest).
Proof.
  split.
  - intros Hisort Hnone Hsame.
    rewrite retry_loop_from_0, retry_from_step, for_context_lines_step by lia.
    unfold no_changes_after_isort. rewrite Hisort, Hnone.
    by rewrite !bool_decide_eq_true_2.
  - intros Hisort.
    assert (∀ edited_linenums, short_circuit edited_linenums = false)
      as Hnever.
    { intros edited_linenums. unfold no_changes_after_isort.
      by rewrite Hisort. }
    split; [done|].
    rewrite retry_loop_from_0, retry_from_step, for_context_lines_step by lia.
    rewrite Hnever.
    repeat case_match; cbn [trace after app iteration_calls]; eexists;
      reflexivity.
Qed.

(** C4, as the code has it.  After a successful verification the loop stops
    at this iteration, and the merged result is yielded if and only if it
    differs from the content read from the file (before isort): when it
    differs the run is the calls of the iteration, the [yield] and what the
    consumer does with it; when it is equal nothing is yielded and the loop
    returns. *)
Theorem verified_result_yielded_iff_differs_from_worktree
    (m : nat) (range : list nat) (formatted : list string) (acc : A)
    (d : Disk) :
  short_circuit (linenums m) = false →
  run_black src edited_content black_args = inr formatted →
  verdict formatted m = None →
  let y := (src, worktree_content, merged formatted m, chosen formatted m) in
  let r := loop (m :: range) acc d in
  (merged formatted m ≠ worktree_content →
     r = after (calls formatted m ++ [EvYield y])
           (embed EvCaller (body y acc) d))
  ∧ (merged formatted m = worktree_content →
     r = mkRun (Returned acc) d (calls formatted m))
  ∧ (yields (trace r) = [y] ↔ merged formatted m ≠ worktree_content)
  ∧ (yields (trace r) = [] ↔ merged formatted m = worktree_content)
  ∧ margins_tried (trace r) = [m].
Proof.
  intros Hshort Hblack Hverdict y r. subst r.
  rewrite for_context_lines_step, Hshort, Hblack, Hverdict.
  case_bool_decide as Hne; read_trace.
  - repeat split; try done.
  - repeat split; try done.
Qed.

(** *** More on the retry loop *)

Lemma margins_tried_failed (formatted : list string) (l : list nat) :
  margins_tried (flat_map (calls formatted) l) = l.
Proof.
  induction l as [|m l IH]; [done|].
  cbn [flat_map]. by rewrite margins_tried_app, margins_tried_calls, IH.
Qed.

Lemma yields_failed (formatted : list string) (l : list nat) :
  yields (flat_map (calls formatted) l) = [].
Proof.
  induction l as [|m l IH]; [done|].
  cbn [flat_map]. by rewrite yields_app, yields_calls, IH.
Qed.

Lemma black_inputs_failed (formatted : list string) (l : list nat) :
  black_inputs (flat_map (calls formatted) l)
  = replicate (length l) (src, edited_content, black_args).
Proof.
  induction l as [|m l IH]; [done|].
  cbn [flat_map]. by rewrite black_inputs_app, black_inputs_calls, IH.
Qed.

(** Iterations whose verification fails are passed one after the other. *)
Lemma retry_skips_failures (formatted : list string) (j m : nat) (acc : A)
    (d : Disk) :
  m + j ≤ max_margin →
  run_black src edited_content black_args = inr formatted →
  (∀ i, m ≤ i < m + j →
        short_circuit (linenums i) = false
        ∧ verdict formatted i = Some NotEquivalentError) →
  from m acc d
  = after (flat_map (calls formatted) (seq m j)) (from (m + j) acc d).
Proof.
  revert m. induction j as [|j IH]; intros m Hle Hblack Hfail.
  - cbn [seq flat_map]. by rewrite Nat.add_0_r, after_nil.
  - rewrite retry_from_step, for_context_lines_step by lia.
    destruct (Hfail m) as [Hs Hv]; [lia|]. rewrite Hs, Hblack, Hv.
    destruct (Nat.eqb_spec m max_margin); [lia|].
    change (loop (seq (S m) (max_margin + 1 - S m)) acc d)
      with (from (S m) acc d).
    rewrite IH by (try done; try lia; intros; apply Hfail; lia).
    rewrite after_after. cbn [seq flat_map].
    by replace (S m + j) with (m + S j) by lia.
Qed.

(** X1.  When Black returns and the verification raises
    [NotEquivalentError] at every margin, the loop tries the margins
    0, 1, ..., [max_margin], runs Black once per margin, yields nothing,
    leaves the disk alone, and raises [NotEquivalentError]. *)
Theorem verification_failing_at_every_margin_raises
    (formatted : list string) (acc : A) (d : Disk) :
  run_black src edited_content black_args = inr formatted →
  (∀ m, m ≤ max_margin →
        short_circuit (linenums m) = false
        ∧ verdict formatted m = Some NotEquivalentError) →
  let r :=
    retry_loop body git_root revision enable_isort black_args path_in_repo
      src worktree_content edited_content acc d in
  outcome r = Raised NotEquivalentError
  ∧ disk r = d
  ∧ margins_tried (trace r) = seq 0 (max_margin + 1)
  ∧ yields (trace r) = []
  ∧ length (black_inputs (trace r)) = max_margin + 1.
Proof.
  intros Hblack Hfail r. subst r.
  rewrite retry_loop_from_0.
  rewrite (retry_skips_failures formatted max_margin 0) by
    (try done; try lia; intros; apply Hfail; lia).
  cbn [Nat.add]. rewrite retry_from_step, for_context_lines_step by lia.
  destruct (Hfail max_margin) as [Hs Hv]; [lia|]. rewrite Hs, Hblack, Hv.
  rewrite Nat.eqb_refl. cbn [after outcome disk trace].
  rewrite margins_tried_app, yields_app, black_inputs_app.
  rewrite margins_tried_failed, yields_failed, black_inputs_failed.
  rewrite margins_tried_calls, yields_calls, black_inputs_calls.
  rewrite length_app, length_replicate, length_seq, seq_app.
  repeat split; try done.
Qed.


(** X3.  An exception of the verifier other than [NotEquivalentError] is
    not retried: it leaves the loop from the iteration where it is raised,
    at any margin, and the rest of the range is not visited. *)
Theorem other_verification_error_is_not_retried
    (m : nat) (range : list nat) (formatted : list string) (e : exn)
    (acc : A) (d : Disk) :
  short_circuit (linenums m) = false →
  run_black src edited_content black_args = inr formatted →
  verdict formatted m = Some e →
  e ≠ NotEquivalentError →
  for_context_lines body git_root revision enable_isort black_args
    path_in_repo src worktree_content edited_content (m :: range) acc d
  = mkRun (Raised e) d (calls formatted m).
Proof.
  intros Hshort Hblack Hverdict Hother.
  rewrite for_context_lines_step, Hshort, Hblack, Hverdict.
  by destruct e.
Qed.


(** The loop reads no file and runs no linter. *)
Lemma loop_reads_nothing (range : list nat) (acc : A) (d : Disk) :
  files_read (trace (loop range acc d)) = []
  ∧ linters_run (trace (loop range acc d)) = [].
Proof.
  induction range as [|m range [IHr IHl]]; [done|].
  rewrite for_context_lines_step.
  repeat case_match; cbn [trace after embed];
    rewrite ?files_read_app, ?linters_run_app, ?files_read_caller,
      ?linters_run_caller, ?IHr, ?IHl; done.
Qed.

End OneFileFacts.
(** ** One file, the files and the linters *)

Section FilesFacts.
Context {A : Type} (body : Consumer A).
Variables (git_root : Path) (revision : string) (enable_isort : bool)
  (black_args : BlackArgs).

Local Abbreviation file :=
  (format_file body git_root revision enable_isort black_args).
Local Abbreviation files :=
  (for_files body git_root revision enable_isort black_args).

Lemma format_file_found (path_in_repo : Path) (acc : A) (d : Disk)
    (worktree_content : string) :
  let src := joinpath git_root path_in_repo in
  d !! src = Some worktree_content →
  file path_in_repo acc d
  = after (prologue enable_isort black_args src worktree_content)
      (retry_loop body git_root revision enable_isort black_args path_in_repo
         src worktree_content
         (edited_content_of enable_isort black_args src worktree_content)
         acc d).
Proof.
  intros src Hread. unfold format_file, read_text, prologue, edited_content_of.
  fold src. unfold bind at 1. rewrite bind_emit; cbn [outcome after disk trace].
  rewrite Hread; cbn [outcome after disk trace ret].
  destruct enable_isort; unfold bind, after; cbn;
    by destruct (retry_loop _ _ _ _ _ _ _ _ _ _ _) as [[] ? ?].
Qed.

Lemma format_file_missing (path_in_repo : Path) (acc : A) (d : Disk) :
  let src := joinpath git_root path_in_repo in
  d !! src = None →
  file path_in_repo acc d
  = mkRun (Raised (FileNotFoundError src)) d [EvReadText src].
Proof.
  intros src Hread. unfold format_file, read_text. fold src.
  unfold bind at 1. rewrite bind_emit; cbn [outcome after disk trace].
  by rewrite Hread.
Qed.

Lemma for_files_app (done rest : list Path) (acc : A) (d : Disk) :
  files (done ++ rest) acc d
  = bind (files done acc) (λ acc', files rest acc') d.
Proof.
  revert acc d. induction done as [|p done IH]; intros acc d.
  - cbn [app for_files]. by rewrite bind_ret.
  - cbn [app for_files]. rewrite bind_assoc. by apply bind_ext.
Qed.

Lemma linter_events (changed : gset Path) (cmdlines : list string) :
  let evs := map (λ c, EvRunLinter c git_root changed revision) cmdlines in
  yields evs = [] ∧ files_read evs = [] ∧ files_written evs = []
  ∧ linters_run evs = cmdlines ∧ silent evs.
Proof.
  cbn zeta. induction cmdlines as [|c cs (Hy & Hr & Hw & Hl & Hs)]; [done|].
  cbn [map]. repeat split; [done|done|done| |done].
  unfold linters_run in *. cbn. by rewrite Hl.
Qed.

(** The loop over the linters: it changes no file, and its calls are the
    linters up to the first that raises. *)
Lemma for_linters_run (changed : gset Path) (cmdlines : list string)
    (d : Disk) :
  let r := for_linters git_root changed revision cmdlines d in
  disk r = d
  ∧ (∃ k, trace r
          = map (λ c, EvRunLinter c git_root changed revision)
              (take k cmdlines))
  ∧ (∀ u, outcome r = Returned u →
          trace r = map (λ c, EvRunLinter c git_root changed revision)
                      cmdlines)
  ∧ ((∀ c, c ∈ cmdlines → run_linter c git_root changed revision = None) →
     outcome r = Returned tt).
Proof.
  cbn zeta. induction cmdlines as [|c cmdlines (Hd & [k Hk] & Hall & Hok)].
  - repeat split; try done. by exists 0.
  - cbn [for_linters]. rewrite bind_emit.
    destruct (run_linter c git_root changed revision) as [e|] eqn:Hc;
      cbn [after outcome disk trace raise app].
    + repeat split; try done.
      * by exists 1.
      * intros Hnone. specialize (Hnone c). rewrite Hc in Hnone.
        by discriminate Hnone; left.
    + repeat split; try done.
      * exists (S k). cbn [take map]. by rewrite Hk.
      * intros u Hu. cbn [map]. by rewrite (Hall u Hu).
      * intros Hnone. apply Hok. intros c' Hc'. apply Hnone. by right.
Qed.

Lemma for_linters_reads (changed : gset Path) (cmdlines : list string)
    (d : Disk) :
  let r := for_linters git_root changed revision cmdlines d in
  yields (trace r) = [] ∧ files_read (trace r) = []
  ∧ files_written (trace r) = [] ∧ silent (trace r)
  ∧ linters_run (trace r) `prefix_of` cmdlines.
Proof.
  cbn zeta.
  destruct (for_linters_run changed cmdlines d) as (_ & [k ->] & _).
  destruct (linter_events changed (take k cmdlines)) as (Hy & Hr & Hw & Hl & Hs).
  repeat split; try done. rewrite Hl. apply prefix_take.
Qed.

(** A linter that raises ends the loop: the linters before it have run,
    those after it have not. *)
Lemma for_linters_raises (changed : gset Path) (done rest : list string)
    (c : string) (e : exn) (d : Disk) :
  (∀ c', c' ∈ done → run_linter c' git_root changed revision = None) →
  run_linter c git_root changed revision = Some e →
  for_linters git_root changed revision (done ++ c :: rest) d
  = mkRun (Raised e) d
      (map (λ c, EvRunLinter c git_root changed revision) (done ++ [c])).
Proof.
  intros Hdone Hc. induction done as [|c0 done IH]; cbn [app for_linters map].
  - by rewrite bind_emit, Hc.
  - rewrite bind_emit, (Hdone c0) by by left.
    rewrite IH; [done|]. intros c' Hc'. apply Hdone. by right.
Qed.

(** *** What the files yield and read *)

Lemma loop_yields_shape (path_in_repo src : Path)
    (worktree_content edited_content : string) (range : list nat) (acc : A)
    (d : Disk) :
  let ys :=
    yields (trace (for_context_lines body git_root revision enable_isort
                     black_args path_in_repo src worktree_content
                     edited_content range acc d)) in
  ys = []
  ∨ ∃ new_lines,
      ys = [(src, worktree_content, joinlines new_lines, new_lines)]
      ∧ joinlines new_lines ≠ worktree_content.
Proof.
  cbn zeta. induction range as [|m range IH]; [by left|].
  rewrite for_context_lines_step.
  repeat case_match; cbn [trace after embed];
    rewrite ?yields_app, ?yields_calls, ?yields_caller; try (by left).
  - exact IH.
  - right. eexists. split; [reflexivity|]. by case_bool_decide.
Qed.

Lemma format_file_yields (path_in_repo : Path) (acc : A) (d : Disk) :
  let ys := yields (trace (file path_in_repo acc d)) in
  ys = []
  ∨ ∃ y, ys = [y] ∧ yielded_src y = joinpath git_root path_in_repo
         ∧ is_change y.
Proof.
  cbn zeta.
  destruct (d !! joinpath git_root path_in_repo) as [worktree_content|]
    eqn:Hread.
  - rewrite (format_file_found _ _ _ _ Hread). cbn [trace after].
    rewrite yields_app.
    replace (yields (prologue _ _ _ _)) with (@nil Yielded)
      by (unfold prologue; by destruct enable_isort).
    unfold retry_loop.
    destruct (loop_yields_shape path_in_repo
                (joinpath git_root path_in_repo) worktree_content
                (edited_content_of enable_isort black_args
                   (joinpath git_root path_in_repo) worktree_content)
                (seq 0 (length (splitlines
                   (edited_content_of enable_isort black_args
                      (joinpath git_root path_in_repo) worktree_content)) + 1))
                acc d) as [->|(new_lines & -> & Hne)]; [by left|].
    right. eexists. by repeat split.
  - rewrite (format_file_missing _ _ _ Hread). by left.
Qed.

Lemma format_file_reads (path_in_repo : Path) (acc : A) (d : Disk) :
  files_read (trace (file path_in_repo acc d))
  = [joinpath git_root path_in_repo]
  ∧ linters_run (trace (file path_in_repo acc d)) = [].
Proof.
  destruct (d !! joinpath git_root path_in_repo) as [worktree_content|]
    eqn:Hread.
  - rewrite (format_file_found _ _ _ _ Hread). cbn [trace after].
    rewrite files_read_app, linters_run_app. unfold retry_loop.
    destruct (loop_reads_nothing body git_root revision enable_isort
                black_args path_in_repo (joinpath git_root path_in_repo)
                worktree_content
                (edited_content_of enable_isort black_args
                   (joinpath git_root path_in_repo) worktree_content)
                (seq 0 (length (splitlines
                   (edited_content_of enable_isort black_args
                      (joinpath git_root path_in_repo) worktree_content)) + 1))
                acc d) as [-> ->].
    unfold prologue. by destruct enable_isort.
  - by rewrite (format_file_missing _ _ _ Hread).
Qed.

Lemma for_files_yields (paths : list Path) (acc : A) (d : Disk) :
  let ys := yields (trace (files paths acc d)) in
  Forall is_change ys
  ∧ map yielded_src ys `sublist_of` map (joinpath git_root) paths.
Proof.
  cbn zeta. revert acc d. induction paths as [|p paths IH]; intros acc d.
  - split; [constructor|done].
  - cbn [for_files map].
    destruct (format_file_yields p acc d) as [Hys|(y & Hys & Hsrc & Hy)].
    + unfold bind. destruct (outcome (file p acc d)) as [acc'|e];
        cbn [trace]; rewrite ?yields_app, Hys.
      * destruct (IH acc' (disk (file p acc d))) as [Hall Hsub].
        split; [done|]. by apply sublist_cons.
      * split; [constructor|]. apply sublist_nil_l.
    + unfold bind. destruct (outcome (file p acc d)) as [acc'|e];
        cbn [trace]; rewrite ?yields_app, Hys.
      * destruct (IH acc' (disk (file p acc d))) as [Hall Hsub].
        split; [by constructor|].
        cbn [app map]. rewrite Hsrc. by apply sublist_skip.
      * split; [by repeat constructor|].
        cbn [map]. rewrite Hsrc. apply sublist_skip, sublist_nil_l.
Qed.

Lemma for_files_reads (paths : list Path) (acc : A) (d : Disk) :
  let r := files paths acc d in
  files_read (trace r) `prefix_of` map (joinpath git_root) paths
  ∧ (∀ acc', outcome r = Returned acc' →
       files_read (trace r) = map (joinpath git_root) paths)
  ∧ linters_run (trace r) = [].
Proof.
  cbn zeta. revert acc d. induction paths as [|p paths IH]; intros acc d.
  - by repeat split.
  - cbn [for_files map].
    destruct (format_file_reads p acc d) as [Hread Hlint].
    unfold bind. destruct (outcome (file p acc d)) as [acc'|e];
      cbn [trace outcome];
      rewrite ?files_read_app, ?linters_run_app, Hread, Hlint; cbn [app].
    + destruct (IH acc' (disk (file p acc d))) as (Hpre & Hall & Hl).
      repeat split; [by apply prefix_cons| |done].
      intros acc'' Hret. by rewrite (Hall acc'' Hret).
    + repeat split; [apply prefix_cons, prefix_nil|done].
Qed.

End FilesFacts.

(** C2.  The retry loop of a file makes at most [max_margin + 1] iterations,
    where [max_margin] is the number of lines of the content of the file
    after isort; a file that cannot be read has no iteration.  (The loop
    is a structural recursion on the range, so it always ends.) *)
Theorem retry_loop_iterations_bounded {A} (body : Consumer A)
    (git_root : Path) (revision : string) (enable_isort : bool)
    (black_args : BlackArgs) (path_in_repo : Path) (acc : A) (d : Disk) :
  let src := joinpath git_root path_in_repo in
  let r :=
    format_file body git_root revision enable_isort black_args path_in_repo
      acc d in
  match d !! src with
  | Some worktree_content =>
      let edited_content :=
        edited_content_of enable_isort black_args src worktree_content in
      let max_margin := length (splitlines edited_content) in
      iterations (trace r) ≤ max_margin + 1
      ∧ margins_tried (trace r) `prefix_of` seq 0 (max_margin + 1)
  | None => iterations (trace r) = 0
  end.
Proof.
  intros src r. subst r.
  destruct (d !! src) as [worktree_content|] eqn:Hread.
  - rewrite (format_file_found _ _ _ _ _ _ _ _ _ Hread). fold src.
    cbn zeta. unfold iterations. cbn [trace after].
    rewrite margins_tried_app.
    replace (margins_tried (prologue _ _ _ _)) with (@nil nat)
      by (unfold prologue; by destruct enable_isort).
    cbn [app]. split.
    + etrans; [apply loop_iterations|]. by rewrite length_seq.
    + apply margins_tried_prefix.
  - by rewrite (format_file_missing _ _ _ _ _ _ _ _ Hread).
Qed.

(** C5, as the code has it.  An exception raised while a file is processed
    leaves [format_edited_parts]: the run is the run of the files sorted
    before it followed by the run of the failing file, so the files after it
    are not processed and the linters are not run. *)
Theorem failure_in_one_file_ends_the_batch {A} (body : Consumer A)
    (srcs : gset Path) (revision : string) (enable_isort : bool)
    (linter_cmdlines : list string) (black_args : BlackArgs)
    (done : list Path) (path_in_repo : Path) (rest : list Path)
    (acc acc1 : A) (d : Disk) (e : exn) :
  let git_root := get_common_root srcs in
  let changed_files := git_get_modified_files srcs revision git_root in
  let r1 :=
    for_files body git_root revision enable_isort black_args done acc d in
  let r2 :=
    format_file body git_root revision enable_isort black_args path_in_repo
      acc1 (disk r1) in
  sorted changed_files = done ++ path_in_repo :: rest →
  outcome r1 = Returned acc1 →
  outcome r2 = Raised e →
  format_edited_parts srcs revision enable_isort linter_cmdlines black_args
    body acc d
  = mkRun (Raised e) (disk r2) (trace r1 ++ trace r2).
Proof.
  intros git_root changed_files r1 r2 Hsorted Hdone Hfail.
  unfold format_edited_parts. fold git_root changed_files.
  rewrite Hsorted.
  rewrite bind_raised with (e := e); rewrite for_files_app;
    rewrite (bind_returned _ _ _ _ Hdone); fold r1;
    cbn [for_files]; rewrite (bind_raised _ _ _ _ Hfail); fold r2;
    cbn [after outcome disk trace]; reflexivity.
Qed.

(** ** The loop of [main] *)

Lemma some_yield_app (tr tr' : list event) :
  some_yield (tr ++ tr') = some_yield tr || some_yield tr'.
Proof.
  unfold some_yield. rewrite yields_app.
  by destruct (yields tr), (yields tr').
Qed.

Lemma some_yield_with_yield (evs tr : list event) (y : Yielded) :
  some_yield ((evs ++ [EvYield y]) ++ tr) = true.
Proof.
  rewrite !some_yield_app.
  change (some_yield [EvYield y]) with true.
  by rewrite orb_true_r.
Qed.

Lemma files_written_app (tr tr' : list event) :
  files_written (tr ++ tr') = files_written tr ++ files_written tr'.
Proof. apply omap_app. Qed.

Lemma files_written_caller (tr : list caller_event) :
  files_written (map EvCaller tr) = caller_writes tr.
Proof.
  unfold files_written, caller_writes.
  induction tr as [|e tr IH]; [done|].
  destruct e; cbn; by rewrite IH.
Qed.

Lemma tracks_bind (quiet acc : bool) (d : Disk) (c : M event bool)
    (k : bool → M event bool) :
  tracks quiet acc d (c d) →
  (∀ acc', outcome (c d) = Returned acc' →
           tracks quiet acc' (disk (c d)) (k acc' (disk (c d)))) →
  tracks quiet acc d (bind c k d).
Proof.
  intros [Hflag Hquiet] Hk. unfold bind.
  destruct (outcome (c d)) as [acc'|e] eqn:Hc; cbn [outcome disk trace].
  - destruct (Hk acc' eq_refl) as [Hflag' Hquiet']. split; cbn [outcome disk trace after].
    + intros v Hv. rewrite some_yield_app, (Hflag' v Hv), (Hflag acc' eq_refl).
      by rewrite orb_assoc.
    + intros Hq. destruct (Hquiet Hq) as [Hd Hw], (Hquiet' Hq) as [Hd' Hw'].
      rewrite files_written_app, Hw, Hw'. split; [congruence|done].
  - split; cbn [outcome disk trace after]; [done|]. intros Hq. by apply Hquiet.
Qed.

Lemma tracks_after (quiet acc : bool) (d : Disk) (evs : list event)
    (r : Run event bool) :
  yields evs = [] → files_written evs = [] →
  tracks quiet acc d r → tracks quiet acc d (after evs r).
Proof.
  intros Hy Hw [Hflag Hquiet]. split; cbn [outcome disk trace after].
  - intros v Hv. rewrite some_yield_app. unfold some_yield at 1.
    rewrite Hy. cbn [orb]. by apply Hflag.
  - intros Hq. rewrite files_written_app, Hw. by apply Hquiet.
Qed.

Lemma tracks_result (quiet acc : bool) (d : Disk) (evs : list event)
    (o : result bool) :
  yields evs = [] → files_written evs = [] →
  (∀ v, o = Returned v → v = acc) →
  tracks quiet acc d (mkRun o d evs).
Proof.
  intros Hy Hw Ho. split; cbn [outcome disk trace after].
  - intros v Hv. unfold some_yield. rewrite Hy, orb_false_r. by apply Ho.
  - done.
Qed.

Section MainLoop.
Variable args : Namespace.

Local Abbreviation quiet := (quiet args).

Lemma main_body_run (y : Yielded) (acc : bool) (d : Disk) :
  let r := main_body args y acc d in
  (∀ v, outcome r = Returned v → v = true)
  ∧ (quiet = true → disk r = d ∧ caller_writes (trace r) = []).
Proof.
  destruct y as [[[path old_content] new_content] new_lines].
  unfold quiet, main_body, modify_file, bind, ret, emit, raise, of_sum.
  destruct (args_diff args), (args_check args); cbn [negb andb orb];
    try destruct (relative_to_cwd path) as [e|rel]; cbn;
    try destruct (post_gh_suggestion rel old_content new_lines);
    cbn; split; intros; try split; congruence.
Qed.

Lemma retry_loop_tracks (git_root : Path) (revision : string)
    (enable_isort : bool) (black_args : BlackArgs) (path_in_repo src : Path)
    (worktree_content edited_content : string) (range : list nat)
    (acc : bool) (d : Disk) :
  tracks quiet acc d
    (for_context_lines (main_body args) git_root revision enable_isort
       black_args path_in_repo src worktree_content edited_content range
       acc d).
Proof.
  induction range as [|m range IH];
    [apply (tracks_result _ _ _ [] (Returned acc)); by intros; simplify_eq|].
  rewrite for_context_lines_step; cbn zeta.
  repeat case_match;
    try (apply tracks_result; by intros; simplify_eq);
    [by apply tracks_after|].
  match goal with
  | |- context [main_body args ?y acc] =>
      destruct (main_body_run y acc d) as [Hflag Hquiet]
  end.
  split; cbn [outcome disk trace after embed].
  - intros v Hv.
    by rewrite (Hflag v Hv), some_yield_with_yield, orb_true_r.
  - intros Hq. destruct (Hquiet Hq) as [Hd Hw].
    by rewrite !files_written_app, files_written_caller, Hw.
Qed.

Lemma format_file_tracks (git_root : Path) (revision : string)
    (enable_isort : bool) (black_args : BlackArgs) (path_in_repo : Path)
    (acc : bool) (d : Disk) :
  tracks quiet acc d
    (format_file (main_body args) git_root revision enable_isort black_args
       path_in_repo acc d).
Proof.
  destruct (d !! joinpath git_root path_in_repo) as [worktree_content|]
    eqn:Hread.
  - rewrite (format_file_found _ _ _ _ _ _ _ _ _ Hread).
    apply tracks_after; [by destruct enable_isort..|].
    apply retry_loop_tracks.
  - rewrite (format_file_missing _ _ _ _ _ _ _ _ Hread).
    by apply tracks_result.
Qed.

Lemma for_files_tracks (git_root : Path) (revision : string)
    (enable_isort : bool) (black_args : BlackArgs) (paths : list Path)
    (acc : bool) (d : Disk) :
  tracks quiet acc d
    (for_files (main_body args) git_root revision enable_isort black_args
       paths acc d).
Proof.
  revert acc d. induction paths as [|p paths IH]; intros acc d.
  - apply (tracks_result _ _ _ [] (Returned acc)); by intros; simplify_eq.
  - cbn [for_files]. apply tracks_bind; [apply format_file_tracks|].
    intros acc' _. apply IH.
Qed.

Lemma main_loop_tracks (d : Disk) : tracks quiet false d (main_loop args d).
Proof.
  unfold main_loop, format_edited_parts.
  apply tracks_bind; [apply for_files_tracks|].
  intros acc' Hfiles. unfold bind.
  match goal with
  | |- context [for_linters ?g ?c ?r ?l ?d0] =>
      destruct (for_linters_run g r c l d0) as (Hd & _);
      destruct (for_linters_reads g r c l d0) as (Hy & _ & Hw & _)
  end.
  destruct (outcome (for_linters _ _ _ _ _)); cbn [outcome disk trace ret];
    rewrite ?app_nil_r, Hd; apply tracks_result; by intros; simplify_eq.
Qed.

End MainLoop.

(** C9.  When [main] returns, it returns 1 if [--check] was given and
    [format_edited_parts] yielded at least one file, and 0 otherwise; and it
    returns whenever the command line parses, isort is there if asked for,
    and no exception leaves the loop over the generator. *)
Theorem main_retval (argv : option (list string)) (d : Disk)
    (args : Namespace) :
  parse_command_line (effective_argv argv) = inr args →
  let r := main argv d in
  let expected :=
    if args_check args && some_yield (trace r) then 1%Z else 0%Z in
  (∀ v, outcome r = Returned v → v = expected)
  ∧ (args_isort args && negb isort = false →
     (∃ b, outcome (main_loop args d) = Returned b) →
     outcome r = Returned expected).
Proof.
  intros Hparse r expected. subst r expected. unfold main.
  rewrite Hparse; cbn [of_sum]. rewrite bind_ret.
  destruct (args_isort args && negb isort); [by split|].
  destruct (main_loop_tracks args d) as [Hflag _].
  unfold bind.
  destruct (outcome (main_loop args d)) as [b|e] eqn:Hloop;
    cbn [outcome trace ret].
  - rewrite app_nil_r, (Hflag b eq_refl). cbn [orb].
    split; [by intros v [= <-]|done].
  - split; [done|]. by intros _ [b [=]].
Qed.

(** C10.  When [--check] or [--diff] is given, [main] never calls
    [modify_file] and leaves the disk as it was. *)
Theorem check_or_diff_never_writes (argv : option (list string)) (d : Disk)
    (args : Namespace) :
  parse_command_line (effective_argv argv) = inr args →
  args_check args = true ∨ args_diff args = true →
  files_written (trace (main argv d)) = [] ∧ disk (main argv d) = d.
Proof.
  intros Hparse Hopt. unfold main.
  rewrite Hparse; cbn [of_sum]. rewrite bind_ret.
  destruct (args_isort args && negb isort); [by split|].
  destruct (main_loop_tracks args d) as [_ Hquiet].
  destruct Hquiet as [Hd Hw];
    [unfold quiet; destruct Hopt as [-> | ->]; by rewrite ?orb_true_r|].
  unfold bind.
  destruct (outcome (main_loop args d)); cbn [disk trace ret];
    by rewrite ?app_nil_r.
Qed.

(** ** The whole batch *)

Section BatchFacts.
Context {A : Type} (body : Consumer A).
Variables (srcs : gset Path) (revision : string) (enable_isort : bool)
  (linter_cmdlines : list string) (black_args : BlackArgs).

Local Abbreviation git_root := (get_common_root srcs).
Local Abbreviation changed_files :=
  (git_get_modified_files srcs revision (get_common_root srcs)).
Local Abbreviation linter_calls :=
  (map (λ c, EvRunLinter c (get_common_root srcs)
               (git_get_modified_files srcs revision (get_common_root srcs))
               revision) linter_cmdlines).
Local Abbreviation batch :=
  (format_edited_parts srcs revision enable_isort linter_cmdlines black_args
     body).
Local Abbreviation files :=
  (for_files body (get_common_root srcs) revision enable_isort black_args
     (sorted (git_get_modified_files srcs revision (get_common_root srcs)))).

Local Abbreviation linters d :=
  (for_linters (get_common_root srcs)
     (git_get_modified_files srcs revision (get_common_root srcs)) revision
     linter_cmdlines d).

Lemma format_edited_parts_run (acc : A) (d : Disk) :
  batch acc d
  = match outcome (files acc d) with
    | Returned acc' =>
        mkRun
          match outcome (linters (disk (files acc d))) with
          | Returned _ => Returned acc'
          | Raised e => Raised e
          end
          (disk (files acc d))
          (trace (files acc d) ++ trace (linters (disk (files acc d))))
    | Raised e => mkRun (Raised e) (disk (files acc d)) (trace (files acc d))
    end.
Proof.
  unfold format_edited_parts. unfold bind at 1.
  destruct (outcome (files acc d)); [|done].
  destruct (for_linters_run git_root revision changed_files linter_cmdlines
              (disk (files acc d))) as (Hd & _).
  unfold bind.
  destruct (outcome (linters (disk (files acc d))));
    cbn [outcome disk trace ret]; by rewrite ?app_nil_r, Hd.
Qed.

(** X5.  Whatever the consumer does, every tuple [format_edited_parts]
    yields is a change: its new content is [joinlines] of its new lines and
    differs from its old content. *)
Theorem yields_are_changes (acc : A) (d : Disk) :
  Forall is_change (yields (trace (format_edited_parts srcs revision enable_isort
       linter_cmdlines black_args body acc d))).
Proof.
  rewrite format_edited_parts_run.
  destruct (for_files_yields body git_root revision enable_isort black_args
              (sorted changed_files) acc d) as [Hall _].
  destruct (outcome (files acc d)); cbn [trace]; [|done].
  destruct (for_linters_reads git_root revision changed_files linter_cmdlines
              (disk (files acc d))) as (Hy & _).
  by rewrite yields_app, Hy, app_nil_r.
Qed.

(** X6.  The files yielded are modified files, in sorted order, each at
    most once: the source paths of the yields are a sublist of the sorted
    modified files joined to the root. *)
Theorem yields_follow_the_sorted_files (acc : A) (d : Disk) :
  map yielded_src (yields (trace (format_edited_parts srcs revision enable_isort
       linter_cmdlines black_args body acc d)))
  `sublist_of` map (joinpath git_root) (sorted changed_files).
Proof.
  rewrite format_edited_parts_run.
  destruct (for_files_yields body git_root revision enable_isort black_args
              (sorted changed_files) acc d) as [_ Hsub].
  destruct (outcome (files acc d)); cbn [trace]; [|done].
  destruct (for_linters_reads git_root revision changed_files linter_cmdlines
              (disk (files acc d))) as (Hy & _).
  by rewrite yields_app, Hy, app_nil_r.
Qed.

(** X7.  The linters are run in the given order, with the root, the modified
    files and the revision, only after the loop over the files has ended
    without an exception, and up to the first linter that raises: when
    [format_edited_parts] ends without an exception every modified file has
    been read and then every linter command line has been run once; when an
    exception leaves the loop over the files no linter is run; and when a
    linter raises, that exception leaves [format_edited_parts] and the
    linters after it are not run. *)
Theorem linters_run_after_a_clean_batch (acc : A) (d : Disk) :
  let r :=
    format_edited_parts srcs revision enable_isort linter_cmdlines black_args
      body acc d in
  let r_files :=
    for_files body git_root revision enable_isort black_args
      (sorted changed_files) acc d in
  (∀ acc', outcome r = Returned acc' →
     ∃ tr, trace r = tr ++ linter_calls
           ∧ linters_run tr = []
           ∧ files_read tr = map (joinpath git_root) (sorted changed_files)
           ∧ linters_run (trace r) = linter_cmdlines)
  ∧ (∀ e, outcome r_files = Raised e →
          outcome r = Raised e ∧ linters_run (trace r) = [])
  ∧ linters_run (trace r) `prefix_of` linter_cmdlines
  ∧ (linters_run (trace r) ≠ [] →
     files_read (trace r) = map (joinpath git_root) (sorted changed_files))
  ∧ (∀ done c rest e,
       linter_cmdlines = done ++ c :: rest →
       (∃ acc', outcome r_files = Returned acc') →
       (∀ c', c' ∈ done →
              run_linter c' git_root changed_files revision = None) →
       run_linter c git_root changed_files revision = Some e →
       outcome r = Raised e ∧ linters_run (trace r) = done ++ [c]).
Proof.
  cbn zeta. rewrite format_edited_parts_run.
  destruct (for_files_reads body git_root revision enable_isort black_args
              (sorted changed_files) acc d) as (_ & Hall & Hlint).
  destruct (outcome (files acc d)) as [acc'|e] eqn:Hfiles;
    cbn [outcome trace].
  2: { rewrite Hlint. split; [done|]. split; [by intros e' [= <-]|].
       split; [apply prefix_nil|]. split; [done|].
       by intros done c rest e' _ [acc' [=]]. }
  destruct (for_linters_run git_root revision changed_files linter_cmdlines
              (disk (files acc d))) as (_ & _ & Hreturned & _).
  destruct (for_linters_reads git_root revision changed_files linter_cmdlines
              (disk (files acc d))) as (_ & Hr & _ & _ & Hpre).
  rewrite linters_run_app, files_read_app, Hlint, Hr, app_nil_r.
  cbn [app]. split; [|split; [done|split; [done|split]]].
  - intros acc'' Hret.
    destruct (outcome (linters (disk (files acc d)))) as [[]|e] eqn:Hl;
      [|done].
    rewrite (Hreturned tt eq_refl).
    destruct (linter_events git_root revision changed_files linter_cmdlines)
      as (_ & _ & _ & Hruns & _).
    eexists. split; [reflexivity|]. split; [done|].
    split; [by apply (Hall acc')|done].
  - intros _. by apply (Hall acc').
  - intros done c rest e Hsplit _ Hdone Hc. rewrite Hsplit.
    rewrite (for_linters_raises git_root revision changed_files done rest c e
               _ Hdone Hc).
    cbn [outcome trace]. split; [done|].
    by destruct (linter_events git_root revision changed_files (done ++ [c]))
      as (_ & _ & _ & Hruns & _).
Qed.

(** X8.  The files are read in sorted order, each once and only the modified
    ones: the paths read are a prefix of the sorted modified files joined to
    the root. *)
Theorem files_are_read_in_sorted_order (acc : A) (d : Disk) :
  files_read (trace (format_edited_parts srcs revision enable_isort
       linter_cmdlines black_args body acc d))
  `prefix_of` map (joinpath git_root) (sorted changed_files).
Proof.
  rewrite format_edited_parts_run.
  destruct (for_files_reads body git_root revision enable_isort black_args
              (sorted changed_files) acc d) as (Hpre & _ & _).
  destruct (outcome (files acc d)); cbn [trace]; [|done].
  destruct (for_linters_reads git_root revision changed_files linter_cmdlines
              (disk (files acc d))) as (_ & Hr & _).
  by rewrite files_read_app, Hr, app_nil_r.
Qed.

End BatchFacts.

(** ** More on [main] *)

Lemma silent_yields (evs : list event) : silent evs → yields evs = [].
Proof.
  unfold silent. induction evs as [|ev evs IH]; [done|].
  cbn [forallb]. intros [Hev Hevs]%andb_prop.
  destruct ev; try done; by apply IH.
Qed.

Lemma silent_writes (evs : list event) : silent evs → files_written evs = [].
Proof.
  unfold silent. induction evs as [|ev evs IH]; [done|].
  cbn [forallb]. intros [Hev Hevs]%andb_prop.
  destruct ev; try done; by apply IH.
Qed.

Lemma raised_run {E B} (r : Run E B) (e : exn) :
  outcome r = Raised e → mkRun (Raised e) (disk r) (trace r) = r.
Proof. destruct r. by intros [= ->]. Qed.

Lemma main_run (argv : option (list string)) (d : Disk) (args : Namespace) :
  parse_command_line (effective_argv argv) = inr args →
  args_isort args && negb isort = false →
  main argv d
  = mkRun
      match outcome (main_loop args d) with
      | Returned b => Returned (if args_check args && b then 1%Z else 0%Z)
      | Raised e => Raised e
      end
      (disk (main_loop args d)) (trace (main_loop args d)).
Proof.
  intros Hparse Hisort. unfold main.
  rewrite Hparse; cbn [of_sum]. rewrite bind_ret, Hisort.
  unfold bind. destruct (outcome (main_loop args d)); cbn [outcome disk trace ret];
    by rewrite ?app_nil_r.
Qed.

(** A property of runs that is kept by the calls of the generator and by
    sequencing, and holds of a [yield] to the loop body of [main], holds of
    the loop of [main] over the generator. *)
Section MainLoopInd.
Variable args : Namespace.
Variable R : Disk → Run event bool → Prop.
Hypothesis R_result : ∀ d o evs, silent evs → R d (mkRun o d evs).
Hypothesis R_after : ∀ d evs r, silent evs → R d r → R d (after evs r).
Hypothesis R_bind :
  ∀ d r1 r2 a,
    R d r1 → outcome r1 = Returned a → R (disk r1) r2 →
    R d (after (trace r1) r2).
Hypothesis R_yield :
  ∀ d y acc, R d (after [EvYield y] (embed EvCaller (main_body args y acc) d)).

Lemma for_context_lines_R (git_root : Path) (revision : string)
    (enable_isort : bool) (black_args : BlackArgs) (path_in_repo src : Path)
    (worktree_content edited_content : string) (range : list nat)
    (acc : bool) (d : Disk) :
  R d (for_context_lines (main_body args) git_root revision enable_isort
         black_args path_in_repo src worktree_content edited_content range
         acc d).
Proof.
  induction range as [|m range IH]; [by apply R_result|].
  rewrite for_context_lines_step; cbn zeta.
  repeat case_match; try (by apply R_result); [by apply R_after|].
  rewrite <- after_after. by apply R_after.
Qed.

Lemma format_file_R (git_root : Path) (revision : string)
    (enable_isort : bool) (black_args : BlackArgs) (path_in_repo : Path)
    (acc : bool) (d : Disk) :
  R d (format_file (main_body args) git_root revision enable_isort
         black_args path_in_repo acc d).
Proof.
  destruct (d !! joinpath git_root path_in_repo) as [worktree_content|]
    eqn:Hread.
  - rewrite (format_file_found _ _ _ _ _ _ _ _ _ Hread).
    apply R_after; [unfold prologue; by destruct enable_isort|].
    apply for_context_lines_R.
  - rewrite (format_file_missing _ _ _ _ _ _ _ _ Hread). by apply R_result.
Qed.

Lemma for_files_R (git_root : Path) (revision : string)
    (enable_isort : bool) (black_args : BlackArgs) (paths : list Path)
    (acc : bool) (d : Disk) :
  R d (for_files (main_body args) git_root revision enable_isort black_args
         paths acc d).
Proof.
  revert acc d. induction paths as [|p paths IH]; intros acc d;
    [by apply R_result|].
  cbn [for_files].
  pose proof (format_file_R git_root revision enable_isort black_args p acc d)
    as Hp.
  destruct (outcome (format_file (main_body args) git_root revision
                       enable_isort black_args p acc d)) as [acc'|e] eqn:Ho.
  - rewrite (bind_returned _ _ _ _ Ho). by eapply R_bind.
  - rewrite (bind_raised _ _ _ _ Ho). by rewrite raised_run.
Qed.

Lemma main_loop_R (d : Disk) : R d (main_loop args d).
Proof.
  unfold main_loop. rewrite format_edited_parts_run.
  match goal with
  | |- context [outcome (for_files ?b ?g ?r ?i ?ba ?ps false d)] =>
      pose proof (for_files_R g r i ba ps false d) as Hfiles;
      destruct (outcome (for_files b g r i ba ps false d))
        as [acc'|e] eqn:Ho
  end.
  - match goal with
    | |- R d (mkRun ?o (disk ?r) (trace ?r ++ ?l)) =>
        change (R d (after (trace r) (mkRun o (disk r) l)))
    end.
    eapply R_bind; [done..|]. apply R_result.
    match goal with
    | |- silent (trace (for_linters ?g ?c ?r ?l ?d0)) =>
        by destruct (for_linters_reads g r c l d0) as (_ & _ & _ & Hs & _)
    end.
  - by rewrite raised_run.
Qed.

End MainLoopInd.

(** X9.  Without [--check] and without [--diff], [main] writes exactly what
    is yielded: the calls to [modify_file] are, in order, one per yielded
    tuple, with its path and its new content. *)
Theorem main_writes_exactly_the_yields (argv : option (list string))
    (d : Disk) (args : Namespace) :
  parse_command_line (effective_argv argv) = inr args →
  args_check args = false →
  args_diff args = false →
  files_written (trace (main argv d))
  = map write_of (yields (trace (main argv d))).
Proof.
  intros Hparse Hcheck Hdiff.
  destruct (args_isort args && negb isort) eqn:Hisort.
  - unfold main. rewrite Hparse; cbn [of_sum]. by rewrite bind_ret, Hisort.
  - rewrite (main_run _ _ _ Hparse Hisort). cbn [trace].
    apply (main_loop_R args
             (λ _ r, files_written (trace r) = map write_of (yields (trace r)))).
    + intros d0 o evs Hs. cbn [trace]. by rewrite silent_yields, silent_writes.
    + intros d0 evs r Hs Hr. cbn [trace after].
      by rewrite files_written_app, yields_app, silent_yields, silent_writes.
    + intros d0 r1 r2 a Hr1 _ Hr2. cbn [trace after].
      by rewrite files_written_app, yields_app, map_app, Hr1, Hr2.
    + intros d' [[[path old_content] new_content] new_lines] acc.
      cbn [trace after embed].
      rewrite files_written_app, yields_app, files_written_caller,
        yields_caller.
      unfold main_body. by rewrite Hcheck, Hdiff.
Qed.

(** X10.  The disk [main] leaves is the disk it started on with the writes
    of its calls to [modify_file] applied in order: nothing else changes a
    file. *)
Theorem main_changes_the_disk_only_by_its_writes
    (argv : option (list string)) (d : Disk) :
  disk (main argv d) = apply_writes (files_written (trace (main argv d))) d.
Proof.
  destruct (parse_command_line (effective_argv argv)) as [e|args] eqn:Hparse;
    [unfold main; by rewrite Hparse|].
  destruct (args_isort args && negb isort) eqn:Hisort;
    [unfold main; rewrite Hparse; cbn [of_sum]; by rewrite bind_ret, Hisort|].
  rewrite (main_run _ _ _ Hparse Hisort). cbn [disk trace].
  apply (main_loop_R args
           (λ d0 r, disk r = apply_writes (files_written (trace r)) d0)).
  - intros d0 o evs Hs. cbn [disk trace]. by rewrite silent_writes.
  - intros d0 evs r Hs Hr. cbn [disk trace after].
    by rewrite files_written_app, silent_writes.
  - intros d0 r1 r2 a Hr1 _ Hr2. cbn [disk trace after].
    rewrite files_written_app. unfold apply_writes in *.
    by rewrite foldl_app, <- Hr1, <- Hr2.
  - intros d0 [[[path old_content] new_content] new_lines] acc.
    cbn [disk trace after embed].
    rewrite files_written_app, files_written_caller.
    unfold main_body, modify_file, bind, ret, emit, raise, of_sum.
    destruct (args_diff args), (args_check args); cbn [negb andb];
      try destruct (relative_to_cwd path) as [e|rel]; cbn;
      try destruct (post_gh_suggestion rel old_content new_lines); done.
Qed.

(** X11.  When [--isort] is asked for and isort is not installed, [main]
    exits with status 1 before it reads, yields or writes anything. *)
Theorem main_exits_when_isort_is_missing (argv : option (list string))
    (d : Disk) (args : Namespace) :
  parse_command_line (effective_argv argv) = inr args →
  args_isort args = true →
  isort = false →
  main argv d = mkRun (Raised (SystemExit 1)) d [].
Proof.
  intros Hparse Hasked Hmissing. unfold main.
  rewrite Hparse; cbn [of_sum]. by rewrite bind_ret, Hasked, Hmissing.
Qed.

(** X12.  With [--diff], when [post_gh_suggestion] raises on whatever it is
    given, [main] stops at the first yield: at most one tuple is yielded,
    and [main] returns (then 0) only when nothing was yielded. *)
Theorem diff_with_failing_suggestions_stops_at_first_yield
    (argv : option (list string)) (d : Disk) (args : Namespace) :
  parse_command_line (effective_argv argv) = inr args →
  args_diff args = true →
  (∀ path old_content new_lines,
     post_gh_suggestion path old_content new_lines ≠ None) →
  let r := main argv d in
  length (yields (trace r)) ≤ 1
  ∧ (∀ v, outcome r = Returned v → yields (trace r) = [] ∧ v = 0%Z)
  ∧ (yields (trace r) ≠ [] → ∃ e, outcome r = Raised e).
Proof.
  intros Hparse Hdiff Hfails r. subst r.
  destruct (args_isort args && negb isort) eqn:Hisort.
  - unfold main. rewrite Hparse; cbn [of_sum]. rewrite bind_ret, Hisort.
    cbn. repeat split; [lia|done..].
  - rewrite (main_run _ _ _ Hparse Hisort). cbn [trace outcome].
    assert (length (yields (trace (main_loop args d))) ≤ 1
            ∧ (∀ b, outcome (main_loop args d) = Returned b →
                    yields (trace (main_loop args d)) = []))
      as [Hlen Hret].
    { apply (main_loop_R args
               (λ _ r, length (yields (trace r)) ≤ 1
                       ∧ ∀ b, outcome r = Returned b → yields (trace r) = [])).
      - intros d0 o evs Hs. cbn [trace outcome]. rewrite silent_yields by done.
        split; [cbn; lia|done].
      - intros d0 evs r Hs Hr. cbn [trace outcome after].
        by rewrite yields_app, silent_yields.
      - intros d0 r1 r2 a [_ Hr1] Ha [Hlen2 Hr2]. cbn [trace outcome after].
        by rewrite yields_app, (Hr1 a Ha).
      - intros d' [[[path old_content] new_content] new_lines] acc.
        cbn [trace outcome after embed].
        rewrite yields_app, yields_caller. split; [cbn; lia|].
        intros b. unfold main_body, bind, ret, emit, raise, of_sum.
        rewrite Hdiff.
        destruct (relative_to_cwd path) as [e|rel]; cbn; [done|].
        specialize (Hfails rel old_content new_lines).
        by destruct (post_gh_suggestion rel old_content new_lines). }
    destruct (main_loop_tracks args d) as [Hflag _].
    destruct (outcome (main_loop args d)) as [b|e] eqn:Ho.
    + pose proof (Hret b eq_refl) as Hnone.
      pose proof (Hflag b eq_refl) as Hb.
      unfold some_yield in Hb. rewrite Hnone in Hb. cbn in Hb. subst b.
      split; [done|]. split; [|done].
      intros v. rewrite andb_false_r. by intros [= <-].
    + split; [done|]. split; [done|]. intros _. by exists e.
Qed.

End Facts.


(** * The Black options as a shared dict *)

Lemma with_dict_after {E A} (black_args : BlackArgs) (evs : list E)
    (r : Run E A) :
  with_dict black_args (after evs r) = after evs (with_dict black_args r).
Proof. reflexivity. Qed.

Lemma bind_with_dict {E A} (black_args : BlackArgs) (c : M E A) (d : Disk) :
  (a <- c ;; ret (a, black_args)) d = with_dict black_args (c d).
Proof.
  unfold bind, with_dict. destruct (outcome (c d)); [|done].
  cbn. by rewrite app_nil_r.
Qed.

Lemma with_dict_bind {E A B} (black_args : BlackArgs) (c : M E A)
    (k : A → M E B) (k' : A → M E (B * BlackArgs)) (d : Disk) :
  (∀ a d', k' a d' = with_dict black_args (k a d')) →
  bind c k' d = with_dict black_args (bind c k d).
Proof.
  intros Hk. unfold bind. destruct (outcome (c d)); [|reflexivity].
  by rewrite Hk.
Qed.

Section SharedFacts.
Context `{Collaborators} `{Shared.Black}.

Section OneFile.
Context {A : Type} (body : Consumer A).
Variables (git_root : Path) (revision : string) (enable_isort : bool).
Variables (path_in_repo src : Path) (worktree_content edited_content : string).

Local Abbreviation loop :=
  (Shared.for_context_lines body git_root revision enable_isort path_in_repo
     src worktree_content edited_content).
Local Abbreviation linenums :=
  (edited_linenums_at git_root revision path_in_repo edited_content).
Local Abbreviation verdict :=
  (verdict_at git_root revision path_in_repo edited_content).
Local Abbreviation merged :=
  (result_str_at git_root revision path_in_repo edited_content).
Local Abbreviation chosen :=
  (chosen_lines_at git_root revision path_in_repo edited_content).
Local Abbreviation calls black_args :=
  (iteration_calls git_root revision black_args path_in_repo src
     edited_content).

(** One iteration of the loop, as a run: the next iteration is entered with
    the dict as [run_black] left it. *)
Lemma shared_step (m : nat) (range : list nat) (black_args : BlackArgs)
    (acc : A) (d : Disk) :
  loop (m :: range) black_args acc d =
  if no_changes_after_isort enable_isort worktree_content edited_content
       (linenums m)
  then mkRun (Returned (acc, black_args)) d
         [EvRevisionVsLines path_in_repo (splitlines edited_content) m]
  else
    let called := Shared.run_black src edited_content black_args in
    match called.1 with
    | inl e =>
        mkRun (Raised e) d
          [EvRevisionVsLines path_in_repo (splitlines edited_content) m;
           EvRunBlack src edited_content black_args]
    | inr formatted =>
        match verdict formatted m with
        | Some NotEquivalentError =>
            if Nat.eqb m (length (splitlines edited_content))
            then mkRun (Raised NotEquivalentError) d
                   (calls black_args formatted m)
            else after (calls black_args formatted m)
                   (loop range called.2 acc d)
        | Some e => mkRun (Raised e) d (calls black_args formatted m)
        | None =>
            if bool_decide (merged formatted m ≠ worktree_content)
            then
              let y := (src, worktree_content, merged formatted m,
                        chosen formatted m) in
              after (calls black_args formatted m ++ [EvYield y])
                (with_dict called.2 (embed EvCaller (body y acc) d))
            else mkRun (Returned (acc, called.2)) d
                   (calls black_args formatted m)
        end
    end.
Proof.
  cbn [Shared.for_context_lines]. rewrite bind_emit.
  fold (linenums m).
  destruct (no_changes_after_isort _ _ _ _); [reflexivity|].
  rewrite bind_emit. cbn zeta.
  destruct (Shared.run_black src edited_content black_args).1
    as [e|formatted]; cbn [of_sum]; [reflexivity|].
  rewrite bind_ret, !bind_emit.
  unfold verdict_at, result_str_at, chosen_lines_at, black_chunks_of,
    iteration_calls; cbn zeta.
  destruct (verify_ast_unchanged _ _ _ _) as [[]|]; try reflexivity.
  - destruct (Nat.eqb m _); reflexivity.
  - case_bool_decide; [|reflexivity].
    rewrite bind_with_dict. unfold yield. by rewrite bind_emit.
Qed.

(** Whatever [run_black] does to the dict, every call of it in the loop of a
    file is given the same path and the same edited content, and the dict
    the call before it left. *)
Lemma black_calls_of_the_loop (range : list nat) (black_args : BlackArgs)
    (acc : A) (d : Disk) :
  Forall (λ i, i.1 = (src, edited_content))
    (black_inputs (trace (loop range black_args acc d)))
  ∧ Shared.handed_on black_args
      (black_inputs (trace (loop range black_args acc d))).
Proof.
  revert black_args. induction range as [|m range IH]; intros black_args;
    [by split|].
  rewrite shared_step. cbn zeta.
  destruct (no_changes_after_isort _ _ _ _); [by split|].
  destruct (Shared.run_black src edited_content black_args).1
    as [e|formatted]; [by split; [repeat constructor|]|].
  destruct (IH (Shared.run_black src edited_content black_args).2)
    as [IHsame IHhanded].
  repeat case_match; cbn [trace after with_dict embed];
    rewrite ?black_inputs_app, ?black_inputs_caller, ?app_nil_r;
    (split; [by repeat constructor|by cbn]).
Qed.

(** When [run_black] leaves the dict as it is, every call of it in the loop
    of a file has the same arguments, and the reformatted lines handed to the
    differ in any iteration are the value of that one call. *)
Lemma kept_dict_same_call (range : list nat) (black_args : BlackArgs)
    (acc : A) (d : Disk) :
  (Shared.run_black src edited_content black_args).2 = black_args →
  Forall (λ i, i = (src, edited_content, black_args))
    (black_inputs (trace (loop range black_args acc d)))
  ∧ Forall
      (λ b, (Shared.run_black src edited_content black_args).1 = inr b)
      (black_outputs (trace (loop range black_args acc d))).
Proof.
  intros Hkept. induction range as [|m range [IHin IHout]]; [by split|].
  rewrite shared_step. cbn zeta.
  destruct (no_changes_after_isort _ _ _ _); [by split|].
  rewrite Hkept.
  destruct (Shared.run_black src edited_content black_args).1
    as [e|formatted]; [by split; repeat constructor|].
  repeat case_match; cbn [trace after with_dict embed];
    rewrite ?black_inputs_app, ?black_inputs_caller, ?black_outputs_app,
      ?black_outputs_caller, ?app_nil_r;
    (split; by repeat constructor).
Qed.

End OneFile.
End SharedFacts.

(** ** The model with the dict left as it is *)

Section KeptDict.
Context `{Collaborators}.
Context {A : Type} (body : Consumer A).
Variables (git_root : Path) (revision : string) (enable_isort : bool).

Lemma for_context_lines_kept (path_in_repo src : Path)
    (worktree_content edited_content : string) (range : list nat)
    (black_args : BlackArgs) (acc : A) (d : Disk) :
  @Shared.for_context_lines _ keeps_the_dict A body git_root revision
    enable_isort path_in_repo src worktree_content edited_content range
    black_args acc d
  = with_dict black_args
      (for_context_lines body git_root revision enable_isort black_args
         path_in_repo src worktree_content edited_content range acc d).
Proof.
  induction range as [|m range IH]; [reflexivity|].
  rewrite shared_step, for_context_lines_step. cbn zeta.
  destruct (no_changes_after_isort _ _ _ _); [reflexivity|].
  cbn [Shared.run_black keeps_the_dict fst snd].
  destruct (run_black src edited_content black_args) as [e|formatted];
    [reflexivity|].
  repeat case_match; try reflexivity.
  by rewrite IH.
Qed.

Lemma format_file_kept (path_in_repo : Path) (black_args : BlackArgs)
    (acc : A) (d : Disk) :
  @Shared.format_file _ keeps_the_dict A body git_root revision enable_isort
    path_in_repo black_args acc d
  = with_dict black_args
      (format_file body git_root revision enable_isort black_args
         path_in_repo acc d).
Proof.
  unfold Shared.format_file, format_file.
  apply with_dict_bind. intros worktree_content d'.
  apply with_dict_bind. intros edited_content d''.
  apply for_context_lines_kept.
Qed.

Lemma for_files_kept (files : list Path) (black_args : BlackArgs) (acc : A)
    (d : Disk) :
  @Shared.for_files _ keeps_the_dict A body git_root revision enable_isort
    files black_args acc d
  = with_dict black_args
      (for_files body git_root revision enable_isort black_args files acc d).
Proof.
  revert acc d. induction files as [|p files IH]; intros acc d;
    [reflexivity|].
  cbn [Shared.for_files for_files]. unfold bind.
  rewrite format_file_kept. cbn [with_dict outcome disk trace].
  destruct (outcome (format_file _ _ _ _ _ _ _ _)) as [acc'|e];
    [|reflexivity].
  cbn [fst snd]. by rewrite IH.
Qed.

End KeptDict.

(** With a [run_black] that leaves the dict as it is, [format_edited_parts]
    and [main] run as in the model above. *)
Lemma format_edited_parts_kept `{Collaborators} {A} (body : Consumer A)
    (srcs : gset Path) (revision : string) (enable_isort : bool)
    (linter_cmdlines : list string) (black_args : BlackArgs) (acc : A)
    (d : Disk) :
  @Shared.format_edited_parts _ keeps_the_dict A srcs revision enable_isort
    linter_cmdlines black_args body acc d
  = format_edited_parts srcs revision enable_isort linter_cmdlines black_args
      body acc d.
Proof.
  unfold Shared.format_edited_parts, format_edited_parts. cbn zeta.
  unfold bind. rewrite for_files_kept. cbn [with_dict outcome disk trace].
  by destruct (outcome (for_files _ _ _ _ _ _ _ _)).
Qed.

Lemma main_kept `{Collaborators} (argv : option (list string)) (d : Disk) :
  @Shared.main _ keeps_the_dict argv d = main argv d.
Proof.
  unfold Shared.main, main.
  destruct (parse_command_line (effective_argv argv)) as [e|args];
    [reflexivity|].
  cbn [of_sum]. rewrite !bind_ret.
  destruct (args_isort args && negb isort); [reflexivity|].
  unfold bind, Shared.main_loop, main_loop.
  by rewrite format_edited_parts_kept.
Qed.


(** * The properties on the small instance *)

(** Below the maximum margin the loop goes on with the next margin; at the
    maximum margin the exception is raised. *)
Lemma verification_failure_witness :
  Demo.retry_two_lines Demo.retrying 0
  = after (@iteration_calls Demo.retrying "/repo" "HEAD" Demo.no_args "a.py"
             "/repo/a.py" Demo.two_lines Demo.two_lines_formatted 0)
      (Demo.retry_two_lines Demo.retrying 1)
  ∧ outcome (Demo.retry_two_lines Demo.hopeless 2) = Raised NotEquivalentError.
Proof.
  split.
  - destruct (@verification_failure_retries_until_max_margin Demo.retrying
                unit Demo.ignore "/repo" "HEAD" false Demo.no_args "a.py"
                "/repo/a.py" Demo.two_lines Demo.two_lines 0
                Demo.two_lines_formatted tt ∅ eq_refl eq_refl eq_refl)
      as [Hbelow _].
    destruct Hbelow as [Hrun _]; [vm_compute; lia|exact Hrun].
  - destruct (@verification_failure_retries_until_max_margin Demo.hopeless
                unit Demo.ignore "/repo" "HEAD" false Demo.no_args "a.py"
                "/repo/a.py" Demo.two_lines Demo.two_lines 2
                Demo.two_lines_formatted tt ∅ eq_refl eq_refl eq_refl)
      as [_ Hmax].
    unfold Demo.retry_two_lines. rewrite Hmax; reflexivity.
Defined.

(** Black cannot parse the file: the exception leaves the first iteration. *)
Lemma black_failure_witness :
  @for_context_lines Demo.accepting unit Demo.ignore "/repo" "HEAD" false
    Demo.no_args "a.py" "/repo/a.py" Demo.bad_syntax Demo.bad_syntax [0; 1]
    tt ∅
  = mkRun (Raised (Exception "InvalidInput")) ∅
      [EvRevisionVsLines "a.py" ["("] 0;
       EvRunBlack "/repo/a.py" Demo.bad_syntax Demo.no_args].
Proof.
  exact (@black_failure_is_raised_at_once Demo.accepting unit Demo.ignore
           "/repo" "HEAD" false Demo.no_args "a.py" "/repo/a.py"
           Demo.bad_syntax Demo.bad_syntax 0 [1] tt ∅
           (Exception "InvalidInput") eq_refl eq_refl).
Defined.

(** The seven calls of the first iteration on the two-line file. *)
Lemma iteration_steps_witness :
  ∃ rest,
    trace (Demo.loop_two_lines Demo.retrying [0; 1; 2])
    = [ EvRevisionVsLines "a.py" ["x=1"; "y=2"] 0;
        EvRunBlack "/repo/a.py" Demo.two_lines Demo.no_args;
        EvDiffAndGetOpcodes ["x=1"; "y=2"] ["x = 1"; "y=2"];
        EvOpcodesToChunks [("replace", 0, 2, 0, 2)] ["x=1"; "y=2"]
          ["x = 1"; "y=2"];
        @EvChooseLines Demo.retrying
          [(1, ["x=1"; "y=2"], ["x = 1"; "y=2"])] [1];
        EvJoinlines ["x = 1"; "y=2"];
        @EvVerifyAstUnchanged Demo.retrying Demo.two_lines
          ("x = 1" +:+ Demo.nl +:+ "y=2" +:+ Demo.nl)
          [(1, ["x=1"; "y=2"], ["x = 1"; "y=2"])] [1] ] ++ rest.
Proof.
  exact (@iteration_steps_in_order Demo.retrying unit Demo.ignore "/repo"
           "HEAD" false Demo.no_args "a.py" "/repo/a.py" Demo.two_lines
           Demo.two_lines 0 [1; 2] tt ∅ eq_refl).
Defined.

(** C3 as stated fails without isort: the file is as in the revision, no line
    counts as edited at margin 0, the edited content is the worktree content,
    and yet Black is run and a merged result is joined and verified. *)
Lemma unedited_file_without_isort_runs_black :
  @edited_linenums_at Demo.unedited "/repo" "HEAD" "a.py" Demo.two_lines 0 = []
  ∧ @edited_content_of Demo.unedited false Demo.no_args "/repo/a.py"
      Demo.two_lines = Demo.two_lines
  ∧ black_inputs (trace Demo.unedited_run)
    = [("/repo/a.py", Demo.two_lines, Demo.no_args)]
  ∧ trace Demo.unedited_run
    = [ EvReadText "/repo/a.py";
        EvRevisionVsLines "a.py" ["x=1"; "y=2"] 0;
        EvRunBlack "/repo/a.py" Demo.two_lines Demo.no_args;
        EvDiffAndGetOpcodes ["x=1"; "y=2"] ["x = 1"; "y=2"];
        EvOpcodesToChunks [("replace", 0, 2, 0, 2)] ["x=1"; "y=2"]
          ["x = 1"; "y=2"];
        @EvChooseLines Demo.unedited
          [(1, ["x=1"; "y=2"], ["x = 1"; "y=2"])] [];
        EvJoinlines ["x=1"; "y=2"];
        @EvVerifyAstUnchanged Demo.unedited Demo.two_lines Demo.two_lines
          [(1, ["x=1"; "y=2"], ["x = 1"; "y=2"])] [] ].
Proof. repeat split; vm_compute; reflexivity. Qed.

(** With isort the same file leaves the loop after the differ; without
    isort the test of the short-circuit is false. *)
Lemma unchanged_after_isort_witness :
  @retry_loop Demo.unedited unit Demo.ignore "/repo" "HEAD" true Demo.no_args
    "a.py" "/repo/a.py" Demo.two_lines Demo.two_lines tt ∅
  = mkRun (Returned tt) ∅ [EvRevisionVsLines "a.py" ["x=1"; "y=2"] 0]
  ∧ no_changes_after_isort false Demo.two_lines Demo.two_lines [] = false.
Proof.
  split.
  - exact (proj1 (@unchanged_after_isort_short_circuits Demo.unedited unit
                    Demo.ignore "/repo" "HEAD" true Demo.no_args "a.py"
                    "/repo/a.py" Demo.two_lines Demo.two_lines tt ∅)
             eq_refl eq_refl eq_refl).
  - exact (proj1 (proj2 (@unchanged_after_isort_short_circuits Demo.unedited
                           unit Demo.ignore "/repo" "HEAD" false Demo.no_args
                           "a.py" "/repo/a.py" Demo.two_lines Demo.two_lines
                           tt ∅) eq_refl) []).
Defined.

(** C4 as stated fails with isort: isort sorts the imports, Black changes
    nothing and the verifier accepts, so the merged result is the edited
    content; it differs from what was read from the file and is yielded. *)
Lemma isort_only_change_is_yielded :
  @edited_content_of Demo.accepting true Demo.no_args "/repo/a.py"
    Demo.unsorted_imports = Demo.sorted_imports
  ∧ @verdict_at Demo.accepting "/repo" "HEAD" "a.py" Demo.sorted_imports
      ["import a"; "import b"] 0 = None
  ∧ @result_str_at Demo.accepting "/repo" "HEAD" "a.py" Demo.sorted_imports
      ["import a"; "import b"] 0 = Demo.sorted_imports
  ∧ yields (trace Demo.isort_only_run)
    = [("/repo/a.py", Demo.unsorted_imports, Demo.sorted_imports,
        ["import a"; "import b"])].
Proof. repeat split; vm_compute; reflexivity. Qed.

(** The verified result of the two-line file differs from the file and is
    yielded in the first iteration, which is the last. *)
Lemma verified_result_witness :
  yields (trace (Demo.loop_two_lines Demo.accepting [0; 1; 2]))
  = [("/repo/a.py", Demo.two_lines,
      "x = 1" +:+ Demo.nl +:+ "y=2" +:+ Demo.nl, ["x = 1"; "y=2"])]
  ∧ margins_tried (trace (Demo.loop_two_lines Demo.accepting [0; 1; 2])) = [0].
Proof.
  destruct (@verified_result_yielded_iff_differs_from_worktree Demo.accepting
              unit Demo.ignore "/repo" "HEAD" false Demo.no_args "a.py"
              "/repo/a.py" Demo.two_lines Demo.two_lines 0 [1; 2]
              Demo.two_lines_formatted tt ∅ eq_refl eq_refl eq_refl)
    as (_ & _ & [_ Hyield] & _ & Hstop).
  split; [|exact Hstop].
  apply Hyield. vm_compute. discriminate.
Defined.

(** C5 as stated fails: the verification of [a.py] fails at the maximum
    margin; [b.py] is modified too but is never read, and the linter is not
    run. *)
Lemma failure_in_first_file_skips_second :
  @sorted Demo.hopeless
    (@git_get_modified_files Demo.hopeless (list_to_set ["a.py"; "b.py"])
       "HEAD" "/repo") = ["a.py"; "b.py"]
  ∧ outcome Demo.hopeless_batch = Raised NotEquivalentError
  ∧ margins_tried (trace Demo.hopeless_batch) = [0; 1; 2]
  ∧ files_read (trace Demo.hopeless_batch) = ["/repo/a.py"]
  ∧ linters_run (trace Demo.hopeless_batch) = [].
Proof. repeat split; vm_compute; reflexivity. Qed.

(** The same batch, by the theorem. *)
Lemma failure_ends_the_batch_witness :
  outcome Demo.hopeless_batch = Raised NotEquivalentError.
Proof.
  unfold Demo.hopeless_batch.
  rewrite (@failure_in_one_file_ends_the_batch Demo.hopeless unit Demo.ignore
             (list_to_set ["a.py"; "b.py"]) "HEAD" false ["pylint"]
             Demo.no_args [] "a.py" ["b.py"] tt tt
             (Demo.two_files Demo.two_lines) NotEquivalentError
             eq_refl eq_refl eq_refl).
  reflexivity.
Defined.

(** [darker --check a.py] on an edited file returns 1. *)
Lemma main_retval_witness :
  outcome (@main Demo.accepting (Some ["--check"; "a.py"])
             (Demo.one_file Demo.two_lines))
  = Returned 1%Z.
Proof.
  destruct (@main_retval Demo.accepting (Some ["--check"; "a.py"])
              (Demo.one_file Demo.two_lines) Demo.check_args eq_refl)
    as [_ Hreturns].
  rewrite Hreturns; [reflexivity|reflexivity|].
  exists true. reflexivity.
Defined.

(** [darker --diff a.py] on an edited file writes nothing. *)
Lemma check_or_diff_witness :
  files_written (trace (@main Demo.accepting (Some ["--diff"; "a.py"])
                          (Demo.one_file Demo.two_lines))) = []
  ∧ disk (@main Demo.accepting (Some ["--diff"; "a.py"])
            (Demo.one_file Demo.two_lines))
    = Demo.one_file Demo.two_lines.
Proof.
  exact (@check_or_diff_never_writes Demo.accepting
           (Some ["--diff"; "a.py"]) (Demo.one_file Demo.two_lines)
           Demo.diff_args eq_refl (or_intror eq_refl)).
Defined.

(** * [post_gh_suggestion] *)

Section SuggestionFacts.
Import Suggestion.
Context `{Collaborators} `{GitHub}.

Example pretty_line_number : pretty 120 = "120".
Proof. reflexivity. Qed.

(** ** The pieces *)

Lemma after_first_slash_app (cs cs' : list ascii) :
  Forall (λ c, is_slash c = false) cs →
  ∀ c, is_slash c = true →
  after_first_slash (cs ++ c :: cs') = Some cs'.
Proof.
  induction 1 as [|c0 cs Hc0 _ IH]; intros c Hc; cbn.
  - by rewrite Hc.
  - rewrite Hc0. by apply IH.
Qed.

Lemma after_first_slash_none (cs : list ascii) :
  Forall (λ c, is_slash c = false) cs → after_first_slash cs = None.
Proof. induction 1 as [|c cs Hc _ IH]; cbn; [done|by rewrite Hc]. Qed.

Lemma list_ascii_of_string_app (a b : string) :
  list_ascii_of_string (a +:+ b)
  = list_ascii_of_string a ++ list_ascii_of_string b.
Proof.
  induction a as [|c a IH]; [done|].
  change (c :: list_ascii_of_string (a +:+ b)
          = c :: (list_ascii_of_string a ++ list_ascii_of_string b)).
  by rewrite IH.
Qed.

Lemma changes_of_app (path : string) (old_lines new_lines : list string)
    (opcodes : list Opcode) (changes : list Change) :
  changes_of path old_lines new_lines opcodes changes
  = match changes_of path old_lines new_lines opcodes [] with
    | inl e => inl e
    | inr more => inr (changes ++ more)
    end.
Proof.
  revert changes. induction opcodes as [|op opcodes IH]; intros changes.
  - cbn. by rewrite app_nil_r.
  - cbn [changes_of].
    destruct (change_of path old_lines new_lines op) as [e|[change|]];
      [done| |apply IH].
    rewrite (IH (changes ++ [change])), (IH ([] ++ [change])).
    destruct (changes_of path old_lines new_lines opcodes []); [done|].
    by rewrite <- app_assoc.
Qed.

Lemma change_of_known (path : string) (old_lines new_lines : list string)
    (op : Opcode) :
  match change_of path old_lines new_lines op with
  | inl e => e = Exception "ValueError" ∧ known op = false
  | inr (Some _) => suggested op = true ∧ known op = true
  | inr None => suggested op = false ∧ known op = true
  end.
Proof.
  destruct op as [[[[action x] y] z] t]. unfold change_of, suggested, known.
  repeat case_bool_decide; subst; cbn; try done;
    repeat match goal with
           | Hin : _ ∈ _ :: _ |- _ => apply elem_of_cons in Hin as [?|Hin]
           | Hin : _ ∈ [] |- _ => by apply elem_of_nil in Hin
           | Hn : ¬ _ ∈ _ |- _ => exfalso; apply Hn; set_solver
           end; try done.
Qed.

Lemma changes_of_known (path : string) (old_lines new_lines : list string)
    (opcodes : list Opcode) :
  match changes_of path old_lines new_lines opcodes [] with
  | inl e => e = Exception "ValueError" ∧ ∃ op, op ∈ opcodes ∧ known op = false
  | inr changes =>
      Forall (λ op, known op = true) opcodes
      ∧ length changes = length (List.filter suggested opcodes)
  end.
Proof.
  induction opcodes as [|op opcodes IH]; [by split|].
  cbn [changes_of List.filter].
  pose proof (change_of_known path old_lines new_lines op) as Hop.
  destruct (change_of path old_lines new_lines op) as [e|[change|]].
  - destruct Hop as [-> Hop]. split; [done|]. exists op. split; [by left|done].
  - destruct Hop as [Hs Hk]. rewrite Hs, changes_of_app.
    destruct (changes_of path old_lines new_lines opcodes []) as [e|more].
    + destruct IH as [-> (op' & Hin & Hop')]. split; [done|].
      exists op'. split; [by right|done].
    + destruct IH as [Hall Hlen]. split; [by constructor|].
      cbn. by rewrite Hlen.
  - destruct Hop as [Hs Hk]. rewrite Hs.
    destruct (changes_of path old_lines new_lines opcodes []) as [e|more].
    + destruct IH as [-> (op' & Hin & Hop')]. split; [done|].
      exists op'. split; [by right|done].
    + destruct IH as [Hall Hlen]. split; [by constructor|done].
Qed.

Lemma for_comments_run (headers : Headers) (data : list Comment) (d : Disk) :
  let r := for_comments headers data d in
  disk r = d
  ∧ reviews (trace r) = []
  ∧ deletions (trace r) `prefix_of` map c_url data
  ∧ (∀ u, outcome r = Returned u → deletions (trace r) = map c_url data)
  ∧ ((∀ c, c ∈ data → requests_delete (c_url c) headers = None) →
     outcome r = Returned tt).
Proof.
  cbn zeta. induction data as [|c data (Hd & Hr & Hp & Ha & Hok)];
    [by repeat split|].
  cbn [for_comments map]. rewrite bind_emit.
  destruct (requests_delete (c_url c) headers) as [e|] eqn:Hdel;
    cbn [after outcome disk trace raise app].
  - repeat split; try done.
    + apply prefix_cons, prefix_nil.
    + intros Hall. specialize (Hall c). rewrite Hdel in Hall.
      by discriminate Hall; left.
  - unfold deletions, reviews in *. cbn [omap list_omap]. cbn.
    repeat split; try done.
    + by apply prefix_cons.
    + intros u Hu. by rewrite (Ha u Hu).
    + intros Hall. apply Hok. intros c' Hc'. apply Hall. by right.
Qed.

Lemma py_index_in_range (n i : nat) : i ≤ n → py_index n (Z.of_nat i) = i.
Proof.
  intros Hi. unfold py_index.
  destruct (Z.ltb_spec (Z.of_nat i) 0); [lia|].
  rewrite Nat2Z.id. lia.
Qed.

Lemma py_slice_in_range {X} (l : list X) (i j : nat) :
  i ≤ length l → j ≤ length l →
  py_slice l (Z.of_nat i) (Z.of_nat j) = take (j - i) (drop i l).
Proof.
  intros Hi Hj. unfold py_slice. by rewrite !py_index_in_range.
Qed.

Lemma py_slice_from_last {X} (l : list X) (j : nat) :
  j < length l → py_slice l (-1) (Z.of_nat j) = [].
Proof.
  intros Hj. unfold py_slice.
  rewrite py_index_in_range by lia. unfold py_index.
  destruct (Z.ltb_spec (-1) 0); [|lia].
  replace (j - Z.to_nat (Z.max 0 (-1 + Z.of_nat (length l)))) with 0 by lia.
  done.
Qed.

(** The part of [post_gh_suggestion] after the deletions. *)
Local Abbreviation finish path old_content new_lines sha url :=
  (bind
     (of_sum (changes_of path (splitlines old_content) new_lines
                (diff_and_get_opcodes (splitlines old_content) new_lines) []))
     (λ changes, suggests false request_headers (take 15 changes) sha url)).

Lemma post_gh_suggestion_live (path old_content : string)
    (new_lines : list string) (d : Disk) (url sha : string)
    (data : list Comment) :
  github_event = Some (url, sha) →
  requests_get_json url request_headers = inr data →
  Suggestion.post_gh_suggestion path old_content new_lines d
  = after [EvGet url request_headers]
      (bind (for_comments request_headers data)
         (λ _, finish path old_content new_lines sha url) d).
Proof.
  intros Hevent Hget. unfold Suggestion.post_gh_suggestion.
  rewrite Hevent. cbn [negb]. rewrite !bind_assoc, bind_emit.
  rewrite Hget. cbn [of_sum].
  by repeat (rewrite bind_assoc || rewrite bind_ret || cbn beta iota).
Qed.

Lemma finish_run (path old_content : string) (new_lines : list string)
    (sha url : string) (d : Disk) :
  finish path old_content new_lines sha url d
  = match
      changes_of path (splitlines old_content) new_lines
        (diff_and_get_opcodes (splitlines old_content) new_lines) []
    with
    | inl e => mkRun (Raised e) d []
    | inr changes =>
        let comments := map review_comment (take 15 changes) in
        let review :=
          {| rv_body := review_body;
             rv_commit_id := sha;
             rv_event := match comments with
                         | [] => "APPROVE"
                         | _ :: _ => "REQUEST_CHANGES"
                         end;
             rv_comments := comments |} in
        mkRun
          match
            requests_post (rsplit_slash_head url +:+ "/reviews") review
              request_headers
          with
          | Some e => Raised e
          | None => Returned tt
          end
          d
          [EvPost (rsplit_slash_head url +:+ "/reviews") review
             request_headers]
    end.
Proof.
  destruct (changes_of _ _ _ _ _) as [e|changes]; cbn [of_sum]; [done|].
  rewrite bind_ret. unfold suggests, post. cbn [negb]. rewrite bind_emit.
  by destruct (requests_post _ _ _).
Qed.

Lemma finish_reads (path old_content : string) (new_lines : list string)
    (sha url : string) (d : Disk) :
  let r := finish path old_content new_lines sha url d in
  disk r = d ∧ deletions (trace r) = [].
Proof.
  cbn zeta. rewrite finish_run.
  by destruct (changes_of _ _ _ _ _).
Qed.

Lemma live_run (path old_content : string) (new_lines : list string)
    (d : Disk) (url sha : string) (data : list Comment) :
  github_event = Some (url, sha) →
  requests_get_json url request_headers = inr data →
  let fc := for_comments request_headers data d in
  Suggestion.post_gh_suggestion path old_content new_lines d
  = match outcome fc with
    | Returned _ =>
        after (EvGet url request_headers :: trace fc)
          (finish path old_content new_lines sha url d)
    | Raised e =>
        mkRun (Raised e) d (EvGet url request_headers :: trace fc)
    end.
Proof.
  intros Hevent Hget fc. rewrite (post_gh_suggestion_live _ _ _ _ _ _ _ Hevent Hget).
  destruct (for_comments_run request_headers data d) as (Hd & _).
  fold fc in Hd. unfold bind. fold fc.
  destruct (outcome fc) as [[]|e]; rewrite Hd; [|done].
  reflexivity.
Qed.

(** ** What the function does *)

(** X13.  Without a readable GitHub event, [post_gh_suggestion] raises
    [UnboundLocalError] before it sends any request: [data] is read but was
    never assigned. *)
Theorem no_github_event_raises_before_any_request
    (path old_content : string) (new_lines : list string) (d : Disk) :
  github_event = None →
  Suggestion.post_gh_suggestion path old_content new_lines d
  = mkRun (Raised (Exception "UnboundLocalError")) d [].
Proof.
  intros Hevent. unfold Suggestion.post_gh_suggestion.
  rewrite Hevent. cbn [negb]. by rewrite bind_ret.
Qed.

(** X14.  With a GitHub event, the review comments the API returns are
    deleted in order, whoever wrote them and whatever their body: the
    deletions are a prefix of the URLs of the comments, and all of them when
    no deletion raises. *)
Theorem every_review_comment_is_deleted
    (path old_content : string) (new_lines : list string) (d : Disk)
    (url sha : string) (data : list Comment) :
  github_event = Some (url, sha) →
  requests_get_json url request_headers = inr data →
  let r := Suggestion.post_gh_suggestion path old_content new_lines d in
  deletions (trace r) `prefix_of` map c_url data
  ∧ ((∀ c, c ∈ data → requests_delete (c_url c) request_headers = None) →
     deletions (trace r) = map c_url data).
Proof.
  intros Hevent Hget r. subst r. rewrite (live_run _ _ _ _ _ _ _ Hevent Hget).
  destruct (for_comments_run request_headers data d)
    as (_ & _ & Hpre & Hall & Hok).
  destruct (finish_reads path old_content new_lines sha url d) as [_ Hfin].
  destruct (outcome (for_comments request_headers data d)) as [[]|e] eqn:Hfc;
    cbn [trace after].
  - unfold deletions in *. cbn [omap list_omap]. rewrite omap_app, Hfin, app_nil_r.
    split; [done|]. intros _. by apply (Hall tt).
  - unfold deletions in *. cbn [omap list_omap].
    split; [done|]. intros Hdel. by specialize (Hok Hdel).
Qed.

Lemma reviews_app (tr tr' : list http_event) :
  reviews (tr ++ tr') = reviews tr ++ reviews tr'.
Proof. apply omap_app. Qed.

Lemma deletions_app (tr tr' : list http_event) :
  deletions (tr ++ tr') = deletions tr ++ deletions tr'.
Proof. apply omap_app. Qed.

Lemma get_failure_run (path old_content : string) (new_lines : list string)
    (d : Disk) (url sha : string) (e : exn) :
  github_event = Some (url, sha) →
  requests_get_json url request_headers = inl e →
  Suggestion.post_gh_suggestion path old_content new_lines d
  = mkRun (Raised e) d [EvGet url request_headers].
Proof.
  intros Hevent Hget. unfold Suggestion.post_gh_suggestion.
  rewrite Hevent. cbn [negb]. rewrite !bind_assoc, bind_emit.
  by rewrite Hget.
Qed.

Lemma rsplit_slash_head_app (base last : string) :
  Forall (λ c, is_slash c = false) (list_ascii_of_string last) →
  rsplit_slash_head (base +:+ "/" +:+ last) = base.
Proof.
  intros Hlast. unfold rsplit_slash_head.
  rewrite list_ascii_of_string_app.
  change (list_ascii_of_string ("/" +:+ last))
    with ("/"%char :: list_ascii_of_string last).
  rewrite rev_app_distr. cbn [rev]. rewrite <- app_assoc. cbn [app].
  rewrite after_first_slash_app by (try done; by apply Forall_rev).
  by rewrite rev_involutive, string_of_list_ascii_of_string.
Qed.

Lemma rsplit_slash_head_none (s : string) :
  Forall (λ c, is_slash c = false) (list_ascii_of_string s) →
  rsplit_slash_head s = s.
Proof.
  intros Hs. unfold rsplit_slash_head.
  by rewrite after_first_slash_none by by apply Forall_rev.
Qed.

(** X15.  At most one review is posted, and it has at most 15 comments; its
    event is APPROVE when it has no comment and REQUEST_CHANGES when it has
    one. *)
Theorem at_most_one_review_of_at_most_15_comments
    (path old_content : string) (new_lines : list string) (d : Disk) :
  match
    reviews (trace (Suggestion.post_gh_suggestion path old_content new_lines d))
  with
  | [] => True
  | [(_, review)] =>
      length (rv_comments review) ≤ 15
      ∧ (rv_event review = "APPROVE" ∧ rv_comments review = []
         ∨ rv_event review = "REQUEST_CHANGES" ∧ rv_comments review ≠ [])
  | _ => False
  end.
Proof.
  destruct github_event as [[url sha]|] eqn:Hevent.
  2: { unfold Suggestion.post_gh_suggestion.
       rewrite Hevent. cbn [negb]. by rewrite bind_ret. }
  destruct (requests_get_json url request_headers) as [e|data] eqn:Hget;
    [by rewrite (get_failure_run _ _ _ _ _ _ _ Hevent Hget)|].
  rewrite (live_run _ _ _ _ _ _ _ Hevent Hget).
  destruct (for_comments_run request_headers data d) as (_ & Hnone & _).
  destruct (outcome (for_comments request_headers data d)) as [[]|e];
    cbn [trace after].
  - rewrite reviews_app.
    change (reviews (EvGet url request_headers :: ?tr)) with (reviews tr).
    rewrite Hnone, finish_run. cbn [app].
    destruct (changes_of _ _ _ _ _) as [e|changes]; [done|].
    cbn. split.
    + rewrite length_map, length_take. lia.
    + destruct (map review_comment (take 15 changes)); [by left|by right].
  - change (reviews (EvGet url request_headers :: ?tr)) with (reviews tr).
    by rewrite Hnone.
Qed.

(** X16.  With a GitHub event, when the API answers, the deletions go
    through and every opcode of the diff has a known tag, one review is
    posted to the reviews URL for the head commit; it has one comment per
    replace or insert opcode, up to 15, and it approves exactly when the
    diff has no such opcode, also when it has deletions. *)
Theorem review_counts_the_suggested_opcodes
    (path old_content : string) (new_lines : list string) (d : Disk)
    (url sha : string) (data : list Comment) :
  let opcodes := diff_and_get_opcodes (splitlines old_content) new_lines in
  let r := Suggestion.post_gh_suggestion path old_content new_lines d in
  github_event = Some (url, sha) →
  requests_get_json url request_headers = inr data →
  (∀ c, c ∈ data → requests_delete (c_url c) request_headers = None) →
  Forall (λ op, known op = true) opcodes →
  ∃ review,
    reviews (trace r) = [(rsplit_slash_head url +:+ "/reviews", review)]
    ∧ rv_commit_id review = sha
    ∧ length (rv_comments review)
      = Nat.min 15 (length (List.filter suggested opcodes))
    ∧ (rv_event review = "APPROVE" ↔ List.filter suggested opcodes = []).
Proof.
  intros opcodes r Hevent Hget Hdel Hknown. subst r.
  rewrite (live_run _ _ _ _ _ _ _ Hevent Hget).
  destruct (for_comments_run request_headers data d) as (_ & Hnone & _ & _ & Hok).
  rewrite (Hok Hdel). cbn [trace after].
  rewrite reviews_app.
  change (reviews (EvGet url request_headers :: ?tr)) with (reviews tr).
  rewrite Hnone, finish_run. cbn [app].
  pose proof (changes_of_known path (splitlines old_content) new_lines
                opcodes) as Hchanges.
  fold opcodes.
  destruct (changes_of path (splitlines old_content) new_lines opcodes [])
    as [e|changes].
  - destruct Hchanges as [_ (op & Hin & Hop)].
    rewrite Forall_forall in Hknown. specialize (Hknown op).
    rewrite (Hknown Hin) in Hop. done.
  - destruct Hchanges as [_ Hlen]. cbn -[Nat.min take].
    eexists. split; [reflexivity|]. cbn -[Nat.min take].
    split; [done|]. split.
    + rewrite length_map, length_take, Hlen. lia.
    + destruct (List.filter suggested opcodes), changes; done.
Qed.

(** X17.  An opcode whose tag is not replace, insert, delete or equal makes
    the function raise [ValueError]; by then the comments have been deleted,
    and no review is posted. *)
Theorem unknown_opcode_raises_after_the_deletions
    (path old_content : string) (new_lines : list string) (d : Disk)
    (url sha : string) (data : list Comment) (op : Opcode) :
  let opcodes := diff_and_get_opcodes (splitlines old_content) new_lines in
  let r := Suggestion.post_gh_suggestion path old_content new_lines d in
  github_event = Some (url, sha) →
  requests_get_json url request_headers = inr data →
  (∀ c, c ∈ data → requests_delete (c_url c) request_headers = None) →
  op ∈ opcodes →
  known op = false →
  outcome r = Raised (Exception "ValueError")
  ∧ deletions (trace r) = map c_url data
  ∧ reviews (trace r) = [].
Proof.
  intros opcodes r Hevent Hget Hdel Hin Hop. subst r.
  rewrite (live_run _ _ _ _ _ _ _ Hevent Hget).
  destruct (for_comments_run request_headers data d)
    as (_ & Hnone & _ & Hall & Hok).
  rewrite (Hok Hdel). cbn [outcome trace after].
  rewrite reviews_app, deletions_app.
  change (reviews (EvGet url request_headers :: ?tr)) with (reviews tr).
  change (deletions (EvGet url request_headers :: ?tr)) with (deletions tr).
  rewrite Hnone, (Hall tt (Hok Hdel)), finish_run.
  pose proof (changes_of_known path (splitlines old_content) new_lines
                opcodes) as Hchanges.
  fold opcodes.
  destruct (changes_of path (splitlines old_content) new_lines opcodes [])
    as [e|changes].
  - destruct Hchanges as [-> _]. cbn. by rewrite app_nil_r.
  - destruct Hchanges as [Hknown _].
    rewrite Forall_forall in Hknown. specialize (Hknown op).
    rewrite (Hknown Hin) in Hop. done.
Qed.

(** X18.  The review goes to the URL of the comments with its last segment
    replaced by [reviews]; a URL without a slash gets [/reviews] appended. *)
Theorem review_url_replaces_the_last_segment
    (headers : Headers) (changes : list Change) (sha : string) (d : Disk)
    (base last : string) :
  Forall (λ c, is_slash c = false) (list_ascii_of_string last) →
  reviews (trace (suggests false headers changes sha
                    (base +:+ "/" +:+ last) d))
  = [(base +:+ "/reviews",
      mkReview review_body sha
        match map review_comment changes with
        | [] => "APPROVE"
        | _ :: _ => "REQUEST_CHANGES"
        end
        (map review_comment changes))]
  ∧ reviews (trace (suggests false headers changes sha last d))
    = [(last +:+ "/reviews",
        mkReview review_body sha
          match map review_comment changes with
          | [] => "APPROVE"
          | _ :: _ => "REQUEST_CHANGES"
          end
          (map review_comment changes))].
Proof.
  intros Hlast. unfold suggests, post. cbn [negb].
  rewrite !bind_emit, rsplit_slash_head_app, rsplit_slash_head_none by done.
  split; by destruct (requests_post _ _ _).
Qed.

Lemma py_slice_to_0 {X} (l : list X) (i : Z) : py_slice l i 0 = [].
Proof.
  unfold py_slice.
  replace (py_index (length l) 0) with 0
    by (unfold py_index; cbn; lia).
  done.
Qed.

(** X19.  For an insertion at the top of the file, an insert opcode with
    [x = y = z = 0], of fewer lines than the new file has, the change is put
    on line 0 and its suggestion is empty: the slices start at index -1,
    which counts from the end. *)
Theorem insertion_at_the_top_suggests_nothing
    (path : string) (old_lines new_lines : list string) (t : nat) :
  t < length new_lines →
  change_of path old_lines new_lines ("insert", 0, 0, 0, t)
  = inr (Some (path, 0, 0, suggestion_body "insert" 0 0 0 t newline "")).
Proof.
  intros Ht. unfold change_of.
  rewrite bool_decide_eq_false_2 by done.
  rewrite bool_decide_eq_true_2 by done.
  change (Z.of_nat 0 - 1)%Z with (-1)%Z. change (Z.of_nat 0) with 0%Z.
  by rewrite py_slice_to_0, py_slice_from_last.
Qed.

(** X20.  For a replace opcode within the two files, the change is on the
    old lines [x + 1] to [y], counted from 1, which are the [y - x] lines it
    shows as replaced; its suggestion is the new lines [z] to [t - 1]; and
    its comment has a start line exactly when more than one line is
    replaced. *)
Theorem replacement_is_anchored_on_the_lines_it_replaces
    (path : string) (old_lines new_lines : list string) (x y z t : nat) :
  x ≤ y → y ≤ length old_lines → z ≤ t → t ≤ length new_lines →
  let replaced := take (y - x) (drop x old_lines) in
  let replacement := take (t - z) (drop z new_lines) in
  let body :=
    suggestion_body "replace" x y z t
      (newline +:+ String.concat newline replacement)
      (String.concat newline replaced) in
  change_of path old_lines new_lines ("replace", x, y, z, t)
  = inr (Some (path, x + 1, y, body))
  ∧ length replaced = y - x
  ∧ rc_line (review_comment (path, x + 1, y, body)) = y
  ∧ rc_start_line (review_comment (path, x + 1, y, body))
    = (if bool_decide (y - x = 1) then None else Some (x + 1)).
Proof.
  intros Hxy Hy Hzt Ht. cbn zeta. unfold change_of.
  rewrite bool_decide_eq_true_2 by done.
  rewrite !py_slice_in_range by lia.
  repeat split.
  - rewrite length_take, length_drop. lia.
  - cbn. repeat case_bool_decide; try done; lia.
Qed.

End SuggestionFacts.

(** * The further properties on the small instances *)

(** The verifier never accepts: three margins, then the exception. *)
Lemma failing_at_every_margin_witness :
  outcome (@retry_loop Demo.hopeless unit Demo.ignore "/repo" "HEAD" false
             Demo.no_args "a.py" "/repo/a.py" Demo.two_lines Demo.two_lines
             tt ∅)
  = Raised NotEquivalentError
  ∧ margins_tried
      (trace (@retry_loop Demo.hopeless unit Demo.ignore "/repo" "HEAD" false
                Demo.no_args "a.py" "/repo/a.py" Demo.two_lines
                Demo.two_lines tt ∅))
    = [0; 1; 2].
Proof.
  destruct (@verification_failing_at_every_margin_raises Demo.hopeless unit
              Demo.ignore "/repo" "HEAD" false Demo.no_args "a.py"
              "/repo/a.py" Demo.two_lines Demo.two_lines
              Demo.two_lines_formatted tt ∅ eq_refl
              ltac:(intros m Hm; change (m ≤ 2) in Hm;
                    destruct m as [|[|[|m]]]; [by vm_compute..|lia]))
    as (Hraised & _ & Hmargins & _).
  split; [exact Hraised|exact Hmargins].
Defined.


(** The verifier raises a syntax error: the first iteration is the last. *)
Lemma other_verification_error_witness :
  outcome (@for_context_lines Demo2.crashing unit Demo.ignore "/repo" "HEAD"
             false Demo.no_args "a.py" "/repo/a.py" Demo.two_lines
             Demo.two_lines [0; 1; 2] tt ∅)
  = Raised (Exception "SyntaxError").
Proof.
  rewrite (@other_verification_error_is_not_retried Demo2.crashing unit
             Demo.ignore "/repo" "HEAD" false Demo.no_args "a.py"
             "/repo/a.py" Demo.two_lines Demo.two_lines 0 [1; 2]
             Demo.two_lines_formatted (Exception "SyntaxError") tt ∅
             eq_refl eq_refl eq_refl);
    [reflexivity|discriminate].
Defined.

(** The second of three linters cannot be started: its exception leaves
    [format_edited_parts] after the file was formatted, the first two linters
    were run and the third was not. *)
Lemma failing_linter_witness :
  outcome Demo2.three_linters = Raised (FileNotFoundError "mypy")
  ∧ linters_run (trace Demo2.three_linters) = ["pylint"; "mypy"].
Proof.
  destruct (@linters_run_after_a_clean_batch Demo2.without_mypy unit
              Demo.ignore (list_to_set ["a.py"]) "HEAD" false
              ["pylint"; "mypy"; "flake8"] Demo.no_args tt
              (Demo.one_file Demo.two_lines))
    as (_ & _ & _ & _ & Hfails).
  apply (Hfails ["pylint"] "mypy" ["flake8"] (FileNotFoundError "mypy"));
    [reflexivity|by exists tt; vm_compute| |reflexivity].
  intros c Hc. apply list_elem_of_singleton in Hc. by rewrite Hc.
Defined.

(** [darker a.py] writes the file it yields. *)
Lemma main_writes_witness :
  files_written
    (trace (@main Demo.accepting (Some ["a.py"])
              (Demo.one_file Demo.two_lines)))
  = [("/repo/a.py", "x = 1" +:+ Demo.nl +:+ "y=2" +:+ Demo.nl)].
Proof.
  rewrite (@main_writes_exactly_the_yields Demo.accepting (Some ["a.py"])
             (Demo.one_file Demo.two_lines) Demo2.write_args
             eq_refl eq_refl eq_refl).
  reflexivity.
Defined.

(** [darker --isort a.py] without isort. *)
Lemma main_without_isort_witness :
  @main Demo2.without_isort (Some ["--isort"; "a.py"])
    (Demo.one_file Demo.two_lines)
  = mkRun (Raised (SystemExit 1)) (Demo.one_file Demo.two_lines) [].
Proof.
  exact (@main_exits_when_isort_is_missing Demo2.without_isort
           (Some ["--isort"; "a.py"]) (Demo.one_file Demo.two_lines)
           Demo2.isort_args eq_refl eq_refl eq_refl).
Defined.

(** [darker --diff a.py] without a GitHub event raises at the first yield. *)
Lemma diff_without_github_event_witness :
  ∃ e, outcome (@main Demo2.offline_main (Some ["--diff"; "a.py"])
                  (Demo.one_file Demo.two_lines)) = Raised e.
Proof.
  destruct (@diff_with_failing_suggestions_stops_at_first_yield
              Demo2.offline_main (Some ["--diff"; "a.py"])
              (Demo.one_file Demo.two_lines) Demo.diff_args eq_refl eq_refl
              ltac:(intros path old_content new_lines; discriminate))
    as (_ & _ & Hraises).
  apply Hraises. vm_compute. discriminate.
Defined.

Lemma no_github_event_witness :
  @Suggestion.post_gh_suggestion (Demo2.with_diff Demo.diff) Demo2.offline
    "a.py" Demo.two_lines Demo.two_lines_formatted ∅
  = mkRun (Raised (Exception "UnboundLocalError")) ∅ [].
Proof.
  exact (@no_github_event_raises_before_any_request
           (Demo2.with_diff Demo.diff) Demo2.offline "a.py" Demo.two_lines
           Demo.two_lines_formatted ∅ eq_refl).
Defined.

(** Both comments are deleted, the one of the reviewer too. *)
Lemma every_comment_deleted_witness :
  Suggestion.deletions
    (trace (@Suggestion.post_gh_suggestion (Demo2.with_diff Demo.diff)
              Demo2.online "a.py" Demo.two_lines Demo.two_lines_formatted ∅))
  = ["https://api.github.com/repos/o/r/pulls/comments/1";
     "https://api.github.com/repos/o/r/pulls/comments/2"].
Proof.
  destruct (@every_review_comment_is_deleted (Demo2.with_diff Demo.diff)
              Demo2.online "a.py" Demo.two_lines Demo.two_lines_formatted ∅
              Demo2.comments_url "abc123"
              [Demo2.human_comment; Demo2.bot_comment] eq_refl eq_refl)
    as [_ Hall].
  rewrite Hall; [reflexivity|]. intros c _. reflexivity.
Defined.

(** A diff that only deletes is approved. *)
Lemma deleting_diff_is_approved_witness :
  ∃ review,
    Suggestion.reviews
      (trace (@Suggestion.post_gh_suggestion
                (Demo2.with_diff Demo2.deleting_diff) Demo2.online "a.py"
                Demo.two_lines ["x=1"] ∅))
    = [("https://api.github.com/repos/o/r/pulls/7/reviews", review)]
    ∧ Suggestion.rv_event review = "APPROVE".
Proof.
  destruct (@review_counts_the_suggested_opcodes
              (Demo2.with_diff Demo2.deleting_diff) Demo2.online "a.py"
              Demo.two_lines ["x=1"] ∅ Demo2.comments_url "abc123"
              [Demo2.human_comment; Demo2.bot_comment] eq_refl eq_refl
              ltac:(intros c _; reflexivity) ltac:(repeat constructor))
    as (review & Hreviews & _ & _ & Happrove).
  exists review. split; [exact Hreviews|]. by apply Happrove.
Defined.

(** A diff with a tag the loop does not know. *)
Lemma unknown_opcode_witness :
  outcome (@Suggestion.post_gh_suggestion
             (Demo2.with_diff Demo2.moving_diff) Demo2.online "a.py"
             Demo.two_lines Demo.two_lines_formatted ∅)
  = Raised (Exception "ValueError").
Proof.
  destruct (@unknown_opcode_raises_after_the_deletions
              (Demo2.with_diff Demo2.moving_diff) Demo2.online "a.py"
              Demo.two_lines Demo.two_lines_formatted ∅ Demo2.comments_url
              "abc123" [Demo2.human_comment; Demo2.bot_comment]
              ("move", 1, 2, 1, 2) eq_refl eq_refl
              ltac:(intros c _; reflexivity) ltac:(right; left) eq_refl)
    as (Hraised & _).
  exact Hraised.
Defined.

Lemma review_url_witness :
  Suggestion.reviews
    (trace (@Suggestion.suggests Demo2.online false
              (Suggestion.mkHeaders "Bearer t0k3n" Suggestion.COMFORT_FADE)
              [] "abc123" Demo2.comments_url ∅))
  = [("https://api.github.com/repos/o/r/pulls/7/reviews",
      Suggestion.mkReview Suggestion.review_body "abc123" "APPROVE" [])].
Proof.
  exact (proj1 (@review_url_replaces_the_last_segment Demo2.online
                  (Suggestion.mkHeaders "Bearer t0k3n" Suggestion.COMFORT_FADE)
                  [] "abc123" ∅ "https://api.github.com/repos/o/r/pulls/7"
                  "comments" ltac:(vm_compute; repeat constructor))).
Defined.

(** Two lines inserted at the top of a file of three. *)
Lemma insertion_at_the_top_witness :
  Suggestion.change_of "a.py" ["c"] ["a"; "b"; "c"] ("insert", 0, 0, 0, 2)
  = inr (Some ("a.py", 0, 0,
               Suggestion.suggestion_body "insert" 0 0 0 2
                 Suggestion.newline "")).
Proof.
  exact (insertion_at_the_top_suggests_nothing "a.py" ["c"] ["a"; "b"; "c"] 2
           ltac:(vm_compute; lia)).
Defined.

(** The second and third of four lines replaced by one. *)
Lemma replacement_witness :
  Suggestion.rc_start_line
    (Suggestion.review_comment
       ("a.py", 2, 3,
        Suggestion.suggestion_body "replace" 1 3 1 2
          (Suggestion.newline +:+ "B") ("b" +:+ Suggestion.newline +:+ "c")))
  = Some 2.
Proof.
  exact (proj2 (proj2 (proj2
           (replacement_is_anchored_on_the_lines_it_replaces "a.py"
              ["a"; "b"; "c"; "d"] ["a"; "B"; "d"] 1 3 1 2
              ltac:(lia) ltac:(vm_compute; lia) ltac:(lia)
              ltac:(vm_compute; lia))))).
Defined.
